(** * Stability analysis engine of the G-Bc plane viewer

    A shallow embedding of the numerical routines of
    [src/interactive_stability_analysis.jsx]: the reduction of the connected
    loads and capacitors to [(G, Bc)], the self-excitation boundary circle,
    the iso-[k] circles, the stability test, the voltage ratio, the
    eigenvalues of the characteristic quadratic and the synthetic time
    response.

    The source file holds two React components.  The first one derives
    [(G, Bc)] from the system configuration (module [Reduced]); the second
    one sets [(G, Bc)] with two sliders (module [Direct]) and repeats the
    circle, the stability test and the voltage ratio of the first.

    The routines are written once over an interface [JsNumber] of the
    arithmetic the source uses.  Two instances are given:
    - [RealNumber]: JavaScript numbers read as real numbers, without
      rounding, overflow and NaN.  The algebraic content of the routines
      is stated at this instance.
    - [Binary64]: IEEE 754 binary64, the number type of JavaScript itself,
      on which the routines evaluate.  Where the two readings part (a flag
      decided by rounding, an overflow, a NaN, the accumulated time of the
      loop), the statement is made at this instance, for any [Math.exp]
      and [Math.cos]. *)

From Stdlib Require Import Reals Lra Psatz ZArith List Bool.
From Stdlib Require Floats.
Import ListNotations.

Set Implicit Arguments.

(** ** The arithmetic of the source *)

Declare Scope js_scope.
Delimit Scope js_scope with js.

(** [lit m d] is the decimal literal [m/d] ([0.5] is [lit 5 10], [1e-10] is
    [lit 1 10000000000]); [lt] and [le] are the comparisons [<] and [<=],
    with [x > y] read as [lt y x] and [x >= y] as [le y x]. *)
Class JsNumber (num : Type) : Type := {
  lit : Z -> positive -> num;
  add : num -> num -> num;
  sub : num -> num -> num;
  mul : num -> num -> num;
  div : num -> num -> num;
  neg : num -> num;
  Math_sqrt : num -> num;
  Math_abs : num -> num;
  Math_max : num -> num -> num;
  Math_min : num -> num -> num;
  lt : num -> num -> bool;
  le : num -> num -> bool
}.

(** The two transcendental functions of the time response. *)
Class JsMath (num : Type) : Type := {
  Math_exp : num -> num;
  Math_cos : num -> num
}.

Infix "+" := add : js_scope.
Infix "-" := sub : js_scope.
Infix "*" := mul : js_scope.
Infix "/" := div : js_scope.
Notation "- x" := (neg x) : js_scope.
Infix "<" := lt : js_scope.
Infix "<=" := le : js_scope.
Notation "x > y" := (lt y x) : js_scope.
Notation "x >= y" := (le y x) : js_scope.

(** [x ** 2] of the source, read as the product [x * x] (in binary64 the
    correctly rounded square is that product). *)
Definition pow2 {num : Type} `{JsNumber num} (x : num) : num := (x * x)%js.

(** *** Real numbers *)

Definition Rltb (x y : R) : bool := if Rlt_dec x y then true else false.
Definition Rleb (x y : R) : bool := if Rle_dec x y then true else false.

#[export] Instance RealNumber : JsNumber R := {|
  lit m d := match d with
             | xH => IZR m
             | _ => (IZR m / IZR (Zpos d))%R
             end;
  add := Rplus;
  sub := Rminus;
  mul := Rmult;
  div := Rdiv;
  neg := Ropp;
  Math_sqrt := sqrt;
  Math_abs := Rabs;
  Math_max := Rmax;
  Math_min := Rmin;
  lt := Rltb;
  le := Rleb
|}.

#[export] Instance RealMath : JsMath R := {|
  Math_exp := exp;
  Math_cos := cos
|}.

(** *** Binary64 *)

Definition float_of_Z (z : Z) : PrimFloat.float :=
  if (z <? 0)%Z
  then PrimFloat.opp (PrimFloat.of_uint63 (Uint63.of_Z (- z)))
  else PrimFloat.of_uint63 (Uint63.of_Z z).

(** [Math.max] and [Math.min]: NaN when an argument is NaN, and [+0] above
    [-0]. *)
Definition float_max (a b : PrimFloat.float) : PrimFloat.float :=
  if PrimFloat.is_nan a || PrimFloat.is_nan b then PrimFloat.nan
  else if PrimFloat.ltb a b then b
  else if PrimFloat.ltb b a then a
  else if PrimFloat.get_sign a then b else a.

Definition float_min (a b : PrimFloat.float) : PrimFloat.float :=
  if PrimFloat.is_nan a || PrimFloat.is_nan b then PrimFloat.nan
  else if PrimFloat.ltb a b then a
  else if PrimFloat.ltb b a then b
  else if PrimFloat.get_sign a then a else b.

(** A quotient of two integers below [2^53] is the binary64 value nearest
    to the decimal literal, as division rounds correctly. *)
#[export] Instance Binary64 : JsNumber PrimFloat.float := {|
  lit m d := PrimFloat.div (float_of_Z m) (float_of_Z (Zpos d));
  add := PrimFloat.add;
  sub := PrimFloat.sub;
  mul := PrimFloat.mul;
  div := PrimFloat.div;
  neg := PrimFloat.opp;
  Math_sqrt := PrimFloat.sqrt;
  Math_abs := PrimFloat.abs;
  Math_max := float_max;
  Math_min := float_min;
  lt := PrimFloat.ltb;
  le := PrimFloat.leb
|}.

(** The binary64 value nearest to an integer literal of [2^53] or more,
    such as [1e200]: the [53] leading bits, rounded, times a power of
    two. *)
Definition big_lit (z : Z) : PrimFloat.float :=
  let e := (Z.log2 z - 52)%Z in
  let m := ((z + 2 ^ (e - 1)) / 2 ^ e)%Z in
  FloatOps.Z.ldexp (PrimFloat.of_uint63 (Uint63.of_Z m)) e.

(** ** Data model *)

(** [params] of both components. *)
Record Params (num : Type) : Type := {
  Xd : num;
  Xd_prime : num;
  XL : num;
  Td0_prime : num;
  Tq0_prime : num
}.

(** [systemConfig]: the loads, the reactive sources and the voltage. *)
Record SystemConfig (num : Type) : Type := {
  P_load1 : num;
  P_load2 : num;
  P_load3 : num;
  Qc_cap1 : num;
  Qc_cap2 : num;
  Qc_cable : num;
  V : num
}.

(** [connected]: which loads and capacitors are switched in. *)
Record Connected : Type := {
  load1 : bool;
  load2 : bool;
  load3 : bool;
  cap1 : bool;
  cap2 : bool;
  cable : bool
}.

(** The object [{ G, Bc, P_total, Qc_total }] of the reduction. *)
Record Reduction (num : Type) : Type := {
  G : num;
  Bc : num;
  P_total : num;
  Qc_total : num
}.

(** The object [{ G_center, Bc_center, R }] of a circle; the field [R] of
    the source is [R_] here, [R] being the type of real numbers. *)
Record Circle (num : Type) : Type := {
  G_center : num;
  Bc_center : num;
  R_ : num
}.

(** The result of [calculateEigenvalues].  The degenerate result has no
    field [oscillatory] ([None]); reading it gives [undefined], which is
    falsy. *)
Module Eig.
Record t (num : Type) : Type := make {
  real : num;
  imag : num;
  stable : bool;
  oscillatory : option bool
}.
End Eig.

(** A sample [{ t, VL, stable }] of [timeData]. *)
Module Sample.
Record t (num : Type) : Type := make {
  t_ : num;
  VL : num;
  stable : bool
}.
End Sample.

(** The object [{ top, right, bottom, left }] of a margin. *)
Module Margin.
Record t (num : Type) : Type := make {
  top : num;
  right : num;
  bottom : num;
  left : num
}.
End Margin.

(** The object [{ min, max }] of an axis range. *)
Module Range.
Record t (num : Type) : Type := make {
  min : num;
  max : num
}.
End Range.

Unset Implicit Arguments.

(** ** The first component: (G, Bc) reduced from the system *)

Module Reduced.
Section Engine.
Context {num : Type} `{JsNumber num}.
Local Open Scope js_scope.

(** The [useMemo] that reduces the connected elements to [G] and [Bc]. *)
Definition reduce (systemConfig : SystemConfig num) (connected : Connected)
  : Reduction num :=
  let V2 := V systemConfig * V systemConfig in
  let P := lit 0 1 in
  let P := if load1 connected then P + P_load1 systemConfig else P in
  let P := if load2 connected then P + P_load2 systemConfig else P in
  let P := if load3 connected then P + P_load3 systemConfig else P in
  let Qc := lit 0 1 in
  let Qc := if cap1 connected then Qc + Qc_cap1 systemConfig else Qc in
  let Qc := if cap2 connected then Qc + Qc_cap2 systemConfig else Qc in
  let Qc := if cable connected then Qc + Qc_cable systemConfig else Qc in
  {| G := P / V2; Bc := Qc / V2; P_total := P; Qc_total := Qc |}.

Definition stabilityCircle (params : Params num) : Circle num :=
  let Bc_center :=
    lit 5 10 * (lit 1 1 / (XL params + Xd_prime params)
                + lit 1 1 / (XL params + Xd params)) in
  let R := (Xd params - Xd_prime params)
           / (lit 2 1 * (XL params + Xd_prime params)
              * (XL params + Xd params)) in
  {| G_center := lit 0 1; Bc_center := Bc_center; R_ := R |}.

Definition calculateKCircle (params : Params num) (k : num) : Circle num :=
  let X_total := XL params + Xd_prime params in
  {| G_center := lit 0 1;
     Bc_center := lit 1 1 / X_total;
     R_ := lit 1 1 / (k * X_total) |}.

(** [checkStability] closes over the memoised circle; [G_center] is
    destructured and not used. *)
Definition checkStability (stabilityCircle : Circle num) (g bc : num)
  : bool :=
  Math_sqrt (g * g + pow2 (bc - Bc_center stabilityCircle))
  > R_ stabilityCircle.

Definition calculateK (params : Params num) (g bc : num) : num :=
  let X := XL params + Xd_prime params in
  let denom := Math_sqrt (pow2 (lit 1 1 - bc * X) + pow2 (g * X)) in
  if denom < lit 1 10000000000 then lit 999 1 else lit 1 1 / denom.

Definition calculateEigenvalues (params : Params num) (g bc : num)
  : Eig.t num :=
  let Q := Xd params - Xd_prime params in
  let X := XL params + Xd_prime params in
  let denom := pow2 (lit 1 1 - bc * X) + pow2 (g * X) in
  if denom < lit 1 10000000000
  then Eig.make (lit 0 1) (lit 0 1) false None
  else
    let Yr := g / denom in
    let Yi := (bc - (g * g + bc * bc) * X) / denom in
    let a := Td0_prime params * Tq0_prime params in
    let b := - (Td0_prime params + Tq0_prime params) * (Yi * Q - lit 1 1) in
    let c := pow2 (Yi * Q - lit 1 1) + pow2 Yr * Q * Q in
    let disc := b * b - lit 4 1 * a * c in
    if disc >= lit 0 1 then
      let s1 := (- b + Math_sqrt disc) / (lit 2 1 * a) in
      let s2 := (- b - Math_sqrt disc) / (lit 2 1 * a) in
      Eig.make (Math_max s1 s2) (lit 0 1)
               ((s1 < lit 0 1) && (s2 < lit 0 1)) (Some false)
    else
      let re := - b / (lit 2 1 * a) in
      let im := Math_sqrt (- disc) / (lit 2 1 * a) in
      Eig.make re im (re < lit 0 1) (Some true).

(** The state shown for the point [(G, Bc)]. *)
Definition isStable (params : Params num) (G Bc : num) : bool :=
  checkStability (stabilityCircle params) G Bc.

Definition kValue (params : Params num) (G Bc : num) : num :=
  calculateK params G Bc.

Definition eigenvalues (params : Params num) (G Bc : num) : Eig.t num :=
  calculateEigenvalues params G Bc.

(** *** The time response *)

Context `{JsMath num}.

Definition dt : num := lit 2 100.
Definition tMax : num := lit 8 1.

(** The body of the loop of [runSimulation] at time [t]: the sample that
    is pushed. *)
Definition sample (params : Params num) (G Bc t : num) : Sample.t num :=
  let eig := calculateEigenvalues params G Bc in
  let k := calculateK params G Bc in
  let stable := checkStability (stabilityCircle params) G Bc in
  let VL := lit 1 1 in
  let VL :=
    if t > lit 5 10 then
      let tau := t - lit 5 10 in
      if stable then
        let decay := Math_exp (Eig.real eig * tau) in
        let osc := match Eig.oscillatory eig with
                   | Some true => Math_cos (Eig.imag eig * tau)
                   | _ => lit 1 1
                   end in
        k * (lit 1 1 + lit 2 10 * decay * osc)
      else
        let growth :=
          Math_min (Math_exp (Math_abs (Eig.real eig) * tau * lit 5 10))
                   (lit 4 1) in
        k * growth
    else VL in
  Sample.make t (Math_min (Math_max VL (lit 4 10)) (lit 25 10)) stable.

(** [for (let t = 0; t <= tMax; t += dt) data.push(...)], with [fuel]
    bounding the number of tests of the loop condition; [None] when the
    fuel runs out before the condition fails. *)
Fixpoint simulate_from (params : Params num) (G Bc : num)
    (fuel : nat) (t : num) (data : list (Sample.t num))
  : option (list (Sample.t num)) :=
  match fuel with
  | O => None
  | S fuel' =>
      if t <= tMax
      then simulate_from params G Bc fuel' (t + dt)
             (data ++ [sample params G Bc t])
      else Some data
  end.

(** The successive values of [t] for which the loop runs its body: [0],
    then [t += dt] while [t <= tMax]. *)
Fixpoint loop_times (fuel : nat) (t : num) : option (list num) :=
  match fuel with
  | O => None
  | S fuel' =>
      if t <= tMax
      then option_map (cons t) (loop_times fuel' (t + dt))
      else Some []
  end.

(** [runSimulation]: the list handed to [setTimeData]. *)
Definition runSimulation (params : Params num) (G Bc : num) (fuel : nat)
  : option (list (Sample.t num)) :=
  simulate_from params G Bc fuel (lit 0 1) [].

(** *** The switches *)

(** The check box of an element: [{...connected, [item.key]:
    e.target.checked}]. *)
Definition set_load1 (connected : Connected) (checked : bool) : Connected :=
  {| load1 := checked; load2 := load2 connected; load3 := load3 connected;
     cap1 := cap1 connected; cap2 := cap2 connected;
     cable := cable connected |}.

Definition set_load2 (connected : Connected) (checked : bool) : Connected :=
  {| load1 := load1 connected; load2 := checked; load3 := load3 connected;
     cap1 := cap1 connected; cap2 := cap2 connected;
     cable := cable connected |}.

Definition set_load3 (connected : Connected) (checked : bool) : Connected :=
  {| load1 := load1 connected; load2 := load2 connected; load3 := checked;
     cap1 := cap1 connected; cap2 := cap2 connected;
     cable := cable connected |}.

Definition set_cap1 (connected : Connected) (checked : bool) : Connected :=
  {| load1 := load1 connected; load2 := load2 connected;
     load3 := load3 connected;
     cap1 := checked; cap2 := cap2 connected; cable := cable connected |}.

Definition set_cap2 (connected : Connected) (checked : bool) : Connected :=
  {| load1 := load1 connected; load2 := load2 connected;
     load3 := load3 connected;
     cap1 := cap1 connected; cap2 := checked; cable := cable connected |}.

Definition set_cable (connected : Connected) (checked : bool) : Connected :=
  {| load1 := load1 connected; load2 := load2 connected;
     load3 := load3 connected;
     cap1 := cap1 connected; cap2 := cap2 connected; cable := checked |}.

(** The four quick buttons and the reset button. *)
Definition toggle_load3 (connected : Connected) : Connected :=
  set_load3 connected (negb (load3 connected)).

Definition toggle_cap1 (connected : Connected) : Connected :=
  set_cap1 connected (negb (cap1 connected)).

(** [{...connected, load2: false, load3: false}] *)
Definition shed_loads (connected : Connected) : Connected :=
  set_load3 (set_load2 connected false) false.

(** [{...connected, cap1: false, cap2: false}] *)
Definition drop_capacitors (connected : Connected) : Connected :=
  set_cap2 (set_cap1 connected false) false.

Definition reset_connected : Connected :=
  {| load1 := true; load2 := true; load3 := true;
     cap1 := true; cap2 := true; cable := true |}.

(** *** The plot of the G-Bc plane *)

Definition svgW : num := lit 420 1.
Definition svgH : num := lit 350 1.
Definition margin : Margin.t num :=
  Margin.make (lit 25 1) (lit 25 1) (lit 45 1) (lit 55 1).
Definition plotW : num := svgW - Margin.left margin - Margin.right margin.
Definition plotH : num := svgH - Margin.top margin - Margin.bottom margin.
Definition GRange : Range.t num := Range.make (lit (-1) 100) (lit 2 10).
Definition BcRange : Range.t num := Range.make (lit 5 100) (lit 3 10).

Definition toX (g : num) : num :=
  Margin.left margin
  + (g - Range.min GRange) / (Range.max GRange - Range.min GRange) * plotW.

Definition toY (bc : num) : num :=
  Margin.top margin + plotH
  - (bc - Range.min BcRange) / (Range.max BcRange - Range.min BcRange)
    * plotH.

Definition fromX (x : num) : num :=
  Range.min GRange
  + (x - Margin.left margin) / plotW * (Range.max GRange - Range.min GRange).

Definition fromY (y : num) : num :=
  Range.max BcRange
  - (y - Margin.top margin) / plotH
    * (Range.max BcRange - Range.min BcRange).

(** The test that admits a point of a contour to the polyline. *)
Definition in_ranges (g bc : num) : bool :=
  (g >= Range.min GRange) && (g <= Range.max GRange)
  && (bc >= Range.min BcRange) && (bc <= Range.max BcRange).

(** The radius [r] of the [<circle>] drawn for the boundary. *)
Definition boundary_r (stabilityCircle : Circle num) : num :=
  R_ stabilityCircle / (Range.max GRange - Range.min GRange) * plotW.

(** *** The plot of the time response *)

Definition tgW : num := lit 380 1.
Definition tgH : num := lit 140 1.
Definition tgM : Margin.t num :=
  Margin.make (lit 20 1) (lit 40 1) (lit 25 1) (lit 45 1).

(** The coordinates [x] and [y] of a sample [d] on the path. *)
Definition path_x (d : Sample.t num) : num :=
  Margin.left tgM
  + (Sample.t_ d / lit 8 1) * (tgW - Margin.left tgM - Margin.right tgM).

Definition path_y (d : Sample.t num) : num :=
  Margin.top tgM
  + (tgH - Margin.top tgM - Margin.bottom tgM)
    * (lit 1 1 - (Sample.VL d - lit 4 10) / lit 21 10).

End Engine.
End Reduced.

(** ** The second component: (G, Bc) set directly *)

Module Direct.
Section Engine.
Context {num : Type} `{JsNumber num}.
Local Open Scope js_scope.

Definition stabilityCircle (params : Params num) : Circle num :=
  let Bc_center :=
    lit 5 10 * (lit 1 1 / (XL params + Xd_prime params)
                + lit 1 1 / (XL params + Xd params)) in
  let R := (Xd params - Xd_prime params)
           / (lit 2 1 * (XL params + Xd_prime params)
              * (XL params + Xd params)) in
  {| G_center := lit 0 1; Bc_center := Bc_center; R_ := R |}.

Definition calculateKCircle (params : Params num) (k : num) : Circle num :=
  let X_total := XL params + Xd_prime params in
  {| G_center := lit 0 1;
     Bc_center := lit 1 1 / X_total;
     R_ := lit 1 1 / (k * X_total) |}.

Definition checkStability (stabilityCircle : Circle num) (g bc : num)
  : bool :=
  let distance :=
    Math_sqrt (pow2 (g - G_center stabilityCircle)
               + pow2 (bc - Bc_center stabilityCircle)) in
  distance > R_ stabilityCircle.

Definition calculateK (params : Params num) (g bc : num) : num :=
  let X := XL params + Xd_prime params in
  let denom := Math_sqrt (pow2 (lit 1 1 - bc * X) + pow2 (g * X)) in
  if denom < lit 1 10000000000 then lit 999 1 else lit 1 1 / denom.

(** The state shown for the point [(G, Bc)] of the sliders. *)
Definition isStable (params : Params num) (G Bc : num) : bool :=
  checkStability (stabilityCircle params) G Bc.

Definition kValue (params : Params num) (G Bc : num) : num :=
  calculateK params G Bc.

(** *** The plot of the G-Bc plane *)

Definition svgW : num := lit 500 1.
Definition svgH : num := lit 400 1.
Definition margin : Margin.t num :=
  Margin.make (lit 30 1) (lit 30 1) (lit 60 1) (lit 80 1).
Definition plotW : num := svgW - Margin.left margin - Margin.right margin.
Definition plotH : num := svgH - Margin.top margin - Margin.bottom margin.
Definition GRange : Range.t num := Range.make (lit (-2) 100) (lit 25 100).
Definition BcRange : Range.t num := Range.make (lit 5 100) (lit 35 100).

Definition toX (g : num) : num :=
  Margin.left margin
  + (g - Range.min GRange) / (Range.max GRange - Range.min GRange) * plotW.

Definition toY (bc : num) : num :=
  Margin.top margin + plotH
  - (bc - Range.min BcRange) / (Range.max BcRange - Range.min BcRange)
    * plotH.

(** The radius [r] of the [<circle>] drawn for the boundary. *)
Definition boundary_r (stabilityCircle : Circle num) : num :=
  R_ stabilityCircle / (Range.max GRange - Range.min GRange) * plotW.

End Engine.
End Direct.

(** ** The initial state of the components *)

(** [useState({ Xd: 1.8, Xd_prime: 0.3, XL: 5.0, Td0_prime: 5.0,
    Tq0_prime: 1.0 })]; no call of [setParams] exists, so these are the
    parameters of every run of either component. *)
Definition initial_params {num : Type} `{JsNumber num} : Params num := {|
  Xd := lit 18 10;
  Xd_prime := lit 3 10;
  XL := lit 5 1;
  Td0_prime := lit 5 1;
  Tq0_prime := lit 1 1
|}.

(** The initial [systemConfig] and [connected] of the first component. *)
Definition initial_systemConfig {num : Type} `{JsNumber num}
  : SystemConfig num := {|
  P_load1 := lit 5 100;
  P_load2 := lit 3 100;
  P_load3 := lit 2 100;
  Qc_cap1 := lit 4 100;
  Qc_cap2 := lit 2 100;
  Qc_cable := lit 15 1000;
  V := lit 1 1
|}.

Definition all_connected : Connected := {|
  load1 := true; load2 := true; load3 := true;
  cap1 := true; cap2 := true; cable := true
|}.

(** ** Validity of the inputs, as the data model states it *)

Local Open Scope R_scope.

(** [Xd > Xd_prime > 0] and [XL > 0]. *)
Definition valid_reactances (p : Params R) : Prop :=
  Xd p > Xd_prime p /\ Xd_prime p > 0 /\ XL p > 0.

(** [Td0_prime > 0] and [Tq0_prime > 0]. *)
Definition valid_time_constants (p : Params R) : Prop :=
  Td0_prime p > 0 /\ Tq0_prime p > 0.

Definition valid_params (p : Params R) : Prop :=
  valid_reactances p /\ valid_time_constants p.

(** All five parameters positive. *)
Definition positive_params (p : Params R) : Prop :=
  0 < Xd p /\ 0 < Xd_prime p /\ 0 < XL p
  /\ 0 < Td0_prime p /\ 0 < Tq0_prime p.

(** Magnitudes not below zero and a positive reference voltage. *)
Definition valid_systemConfig (c : SystemConfig R) : Prop :=
  0 <= P_load1 c /\ 0 <= P_load2 c /\ 0 <= P_load3 c /\
  0 <= Qc_cap1 c /\ 0 <= Qc_cap2 c /\ 0 <= Qc_cable c /\ 0 < V c.

(** The Euclidean distance of [(g, bc)] to the centre of a circle. *)
Definition distance_to_center (c : Circle R) (g bc : R) : R :=
  sqrt ((g - G_center c) ^ 2 + (bc - Bc_center c) ^ 2).

(** ** Quantities of the specification *)

(** The circle that section 4.2 states, in its own words. *)
Definition boundary_formula (p : Params R) : Circle R := {|
  G_center := 0;
  Bc_center := 0.5 * (1 / (XL p + Xd_prime p) + 1 / (XL p + Xd p));
  R_ := (Xd p - Xd_prime p) / (2 * (XL p + Xd_prime p) * (XL p + Xd p))
|}.

(** The denominator of [calculateK], as section 4.5 writes it. *)
Definition ratio_denom (p : Params R) (g bc : R) : R :=
  let X := XL p + Xd_prime p in
  sqrt ((1 - bc * X) ^ 2 + (g * X) ^ 2).

(** Agreement of two numbers up to [tol]. *)
Definition agree_within (tol x y : R) : Prop := Rabs (x - y) <= tol.

(** The point at angle [th] of a circle, as the plot of the contours
    computes it: [c.G_center + c.R * Math.cos(th)] and
    [c.Bc_center + c.R * Math.sin(th)]. *)
Definition circle_point (c : Circle R) (th : R) : R * R :=
  (G_center c + R_ c * cos th, Bc_center c + R_ c * sin th).

(** The quantities of section 4.6, in its own words. *)
Section EigenSpec.
Variables (p : Params R) (G Bc : R).

Definition Xdq : R := Xd p - Xd_prime p.
Definition Xtot : R := XL p + Xd_prime p.
Definition eig_denom : R := (1 - Bc * Xtot) ^ 2 + (G * Xtot) ^ 2.
Definition Yr : R := G / eig_denom.
Definition Yi : R := (Bc - (G ^ 2 + Bc ^ 2) * Xtot) / eig_denom.
Definition coef_a : R := Td0_prime p * Tq0_prime p.
Definition coef_b : R := - (Td0_prime p + Tq0_prime p) * (Yi * Xdq - 1).
Definition coef_c : R := (Yi * Xdq - 1) ^ 2 + (Yr * Xdq) ^ 2.
Definition disc : R := coef_b ^ 2 - 4 * coef_a * coef_c.
Definition root1 : R := (- coef_b + sqrt disc) / (2 * coef_a).
Definition root2 : R := (- coef_b - sqrt disc) / (2 * coef_a).

(** The result the section prescribes: degenerate below [1e-10], two
    real roots for [disc >= 0], a conjugate pair otherwise. *)
Definition eigen_spec : Eig.t R :=
  if Rlt_dec eig_denom 1e-10 then
    Eig.make 0 0 false None
  else if Rle_dec 0 disc then
    Eig.make (Rmax root1 root2) 0
             (Rltb root1 0 && Rltb root2 0) (Some false)
  else
    Eig.make (- coef_b / (2 * coef_a)) (sqrt (- disc) / (2 * coef_a))
             (Rltb (- coef_b / (2 * coef_a)) 0) (Some true).
End EigenSpec.

(** The voltage of a sample lies in the clamp interval. *)
Definition clamped (s : Sample.t R) : Prop :=
  0.4 <= Sample.VL s <= 2.5.

(** The clamp of the voltage, [Math.min(Math.max(v, 0.4), 2.5)]. *)
Definition clamp (v : R) : R := Rmin (Rmax v 0.4) 2.5.

(** The number of tests of the loop condition that [runSimulation] makes:
    [401] samples at [t = 0, 0.02, ..., 8] and the test that ends it. *)
Definition simulation_fuel : nat := 402.

(** The times of the loop in binary64: [0] and the sums that [t += 0.02]
    accumulates, with their rounding, up to [tMax]. *)
Definition binary64_times : list PrimFloat.float :=
  match Reduced.loop_times simulation_fuel (lit 0 1) with
  | Some ts => ts
  | None => []
  end.

(** The configuration after [1e200] is typed into the field of load 1:
    the handler stores [parseFloat(e.target.value) || 0] as it is. *)
Definition overflow_systemConfig : SystemConfig PrimFloat.float := {|
  P_load1 := big_lit (10 ^ 200);
  P_load2 := lit 3 100;
  P_load3 := lit 2 100;
  Qc_cap1 := lit 4 100;
  Qc_cap2 := lit 2 100;
  Qc_cable := lit 15 1000;
  V := lit 1 1
|}.

(** The voltage [Math.min(Math.max(k * (1 + 0.2 * decay * osc), 0.4), 2.5)]
    for [k = 0], [decay = Math.exp(NaN)] and [osc = Math.cos(NaN)]. *)
Definition overflow_voltage (e c : PrimFloat.float) : PrimFloat.float :=
  Math_min
    (Math_max (mul (lit 0 1) (add (lit 1 1) (mul (mul (lit 2 10) e) c)))
              (lit 4 10))
    (lit 25 10).

(** ** Proof support *)

(** Unfolds the arithmetic interface at the real numbers. *)
Ltac js_real :=
  cbn beta iota zeta delta
    [lit add sub mul div neg Math_sqrt Math_abs Math_max Math_min lt le
     Math_exp Math_cos RealNumber RealMath pow2] in *.

(** Unfolds the layout of the plots. *)
Ltac plot_real :=
  unfold Reduced.toX, Reduced.toY, Reduced.fromX, Reduced.fromY,
    Reduced.boundary_r, Reduced.in_ranges, Reduced.plotW, Reduced.plotH,
    Reduced.svgW, Reduced.svgH, Reduced.margin, Reduced.GRange,
    Reduced.BcRange, Reduced.path_x, Reduced.path_y, Reduced.tgW,
    Reduced.tgH, Reduced.tgM,
    Direct.toX, Direct.toY, Direct.boundary_r, Direct.plotW, Direct.plotH,
    Direct.svgW, Direct.svgH, Direct.margin, Direct.GRange, Direct.BcRange
    in *;
  cbn [Margin.top Margin.right Margin.bottom Margin.left
       Range.min Range.max] in *;
  js_real.

(** ** Comparisons of real numbers *)

Lemma Rltb_true (x y : R) : Rltb x y = true <-> x < y.
Proof.
  unfold Rltb; destruct (Rlt_dec x y); split; intros; try easy.
Qed.

Lemma Rltb_false (x y : R) : Rltb x y = false <-> y <= x.
Proof.
  unfold Rltb; destruct (Rlt_dec x y); split; intros; try easy; lra.
Qed.

Lemma Rleb_true (x y : R) : Rleb x y = true <-> x <= y.
Proof.
  unfold Rleb; destruct (Rle_dec x y); split; intros; try easy.
Qed.

Lemma Rleb_false (x y : R) : Rleb x y = false <-> y < x.
Proof.
  unfold Rleb; destruct (Rle_dec x y); split; intros; try easy; lra.
Qed.

Lemma bool_eq_of_iff (a b : bool) : (a = true <-> b = true) -> a = b.
Proof.
  destruct a, b; intros [H1 H2]; try reflexivity.
  - symmetry; now apply H1.
  - now apply H2.
Qed.

(** [sqrt s > r] is [s > r^2] when [r] is not negative. *)
Lemma sqrt_gt_iff (s r : R) : 0 <= s -> 0 <= r -> (r < sqrt s <-> r * r < s).
Proof.
  intros Hs Hr; split; intro Hlt.
  - rewrite <- (sqrt_sqrt s Hs).
    assert (0 <= sqrt s) by apply sqrt_pos. nra.
  - rewrite <- (sqrt_square r Hr). apply sqrt_lt_1_alt. split; nra.
Qed.

Lemma initial_params_valid : valid_params initial_params.
Proof.
  unfold valid_params, valid_reactances, valid_time_constants, initial_params.
  cbn. lra.
Qed.

(** ** The boundary circle *)

Lemma circle_eq (c : Circle R) (g b r : R) :
  G_center c = g -> Bc_center c = b -> R_ c = r ->
  c = {| G_center := g; Bc_center := b; R_ := r |}.
Proof. destruct c; cbn; intros; subst; reflexivity. Qed.

(** C3: for valid reactances, [stabilityCircle] of either component is
    exactly the circle with [centerG = 0],
    [centerBc = 0.5 * (1/(XL+Xd_prime) + 1/(XL+Xd))] and
    [radius = (Xd - Xd_prime) / (2 * (XL+Xd_prime) * (XL+Xd))]. *)
Theorem stabilityCircle_is_boundary_formula (p : Params R) :
  valid_reactances p ->
  Reduced.stabilityCircle p = boundary_formula p /\
  Direct.stabilityCircle p = boundary_formula p.
Proof.
  intros _.
  split; apply circle_eq; cbn; js_real; try reflexivity; f_equal; lra.
Qed.

Lemma stabilityCircle_is_boundary_formula_witness :
  Reduced.stabilityCircle (initial_params (num := R))
    = boundary_formula initial_params /\
  Direct.stabilityCircle (initial_params (num := R))
    = boundary_formula initial_params.
Proof.
  apply stabilityCircle_is_boundary_formula.
  exact (proj1 initial_params_valid).
Defined.

(** The boundary circle of the components, exactly. *)
Lemma stabilityCircle_initial :
  Reduced.stabilityCircle (initial_params (num := R))
  = {| G_center := 0; Bc_center := 605 / 3604; R_ := 75 / 3604 |}.
Proof. apply circle_eq; cbn; js_real; lra. Qed.

(** The radius and the centre are positive for valid reactances: the
    circle lies in [Bc > 0]. *)
Lemma boundary_positive (p : Params R) :
  valid_reactances p ->
  0 < R_ (Reduced.stabilityCircle p) /\
  R_ (Reduced.stabilityCircle p) < Bc_center (Reduced.stabilityCircle p).
Proof.
  intros (Hd & Hp & HL).
  cbn; js_real.
  set (X := XL p + Xd_prime p). set (X2 := XL p + Xd p).
  assert (HX : 0 < X) by (unfold X; lra).
  assert (HX2 : 0 < X2) by (unfold X2; lra).
  replace (Xd p - Xd_prime p) with (X2 - X) by (unfold X, X2; ring).
  assert (E1 : (X2 - X) / (2 * X * X2) = (1 / X - 1 / X2) / 2)
    by (field; lra).
  rewrite E1.
  assert (1 / X2 < 1 / X).
  { unfold Rdiv; rewrite !Rmult_1_l. apply Rinv_lt_contravar; unfold X, X2; nra. }
  assert (0 < 1 / X2) by (apply Rdiv_lt_0_compat; lra).
  split; lra.
Qed.

(** ** The stability test *)

(** The test of the second component, for any circle. *)
Lemma Direct_checkStability_iff (c : Circle R) (g bc : R) :
  Direct.checkStability c g bc = true <-> distance_to_center c g bc > R_ c.
Proof.
  unfold Direct.checkStability, distance_to_center; js_real.
  rewrite Rltb_true.
  replace ((g - G_center c) * (g - G_center c)
           + (bc - Bc_center c) * (bc - Bc_center c))
    with ((g - G_center c) ^ 2 + (bc - Bc_center c) ^ 2) by ring.
  split; intro Hlt; exact Hlt.
Qed.

(** The test of the first component reads [g * g] for the squared distance
    along [G]: it is the distance to the centre when [G_center] is [0]. *)
Lemma Reduced_checkStability_iff (c : Circle R) (g bc : R) :
  G_center c = 0 ->
  (Reduced.checkStability c g bc = true <-> distance_to_center c g bc > R_ c).
Proof.
  intro H0.
  unfold Reduced.checkStability, distance_to_center; js_real.
  rewrite Rltb_true, H0.
  replace (g * g + (bc - Bc_center c) * (bc - Bc_center c))
    with ((g - 0) ^ 2 + (bc - Bc_center c) ^ 2) by ring.
  split; intro Hlt; exact Hlt.
Qed.

(** C9: the classifier answers stable exactly when the distance of
    [(G, Bc)] to the centre of the boundary circle is strictly above the
    radius, and a point at distance equal to the radius is unstable; in
    both components, for a boundary circle (whose [G_center] is [0]). *)
Theorem checkStability_strictly_outside (c : Circle R) (g bc : R) :
  G_center c = 0 ->
  (Reduced.checkStability c g bc = true <-> distance_to_center c g bc > R_ c)
  /\ (Direct.checkStability c g bc = true <-> distance_to_center c g bc > R_ c)
  /\ (distance_to_center c g bc = R_ c ->
      Reduced.checkStability c g bc = false
      /\ Direct.checkStability c g bc = false).
Proof.
  intro H0.
  pose proof (Reduced_checkStability_iff c g bc H0) as HR.
  pose proof (Direct_checkStability_iff c g bc) as HD.
  split; [exact HR|]. split; [exact HD|].
  intro Heq. split.
  - destruct (Reduced.checkStability c g bc); [|reflexivity].
    assert (distance_to_center c g bc > R_ c) by now apply HR. lra.
  - destruct (Direct.checkStability c g bc); [|reflexivity].
    assert (distance_to_center c g bc > R_ c) by now apply HD. lra.
Qed.

(** A point on the boundary: the top of the boundary circle of the
    components, [(0, 1/5.3)], which is the centre of the contours. *)
Lemma checkStability_strictly_outside_witness :
  let c := Reduced.stabilityCircle (initial_params (num := R)) in
  G_center c = 0 /\
  distance_to_center c 0 (1 / 5.3) = R_ c /\
  Reduced.checkStability c 0 (1 / 5.3) = false /\
  Direct.checkStability c 0 (1 / 5.3) = false.
Proof.
  intro c.
  assert (H0 : G_center c = 0) by reflexivity.
  assert (Hd : distance_to_center c 0 (1 / 5.3) = R_ c).
  { unfold c. rewrite stabilityCircle_initial.
    unfold distance_to_center; cbn [G_center Bc_center R_].
    rewrite <- (sqrt_square (75 / 3604)) by lra.
    f_equal. lra. }
  split; [exact H0|]. split; [exact Hd|].
  exact (proj2 (proj2 (checkStability_strictly_outside c 0 (1 / 5.3) H0)) Hd).
Defined.

(** ** The voltage ratio *)

Lemma calculateK_unfold (p : Params R) (g bc : R) :
  Reduced.calculateK p g bc
  = if Rltb (ratio_denom p g bc) (1 / 10000000000)
    then 999 else 1 / ratio_denom p g bc.
Proof.
  unfold Reduced.calculateK, ratio_denom; js_real.
  replace ((1 - bc * (XL p + Xd_prime p)) * (1 - bc * (XL p + Xd_prime p))
           + g * (XL p + Xd_prime p) * (g * (XL p + Xd_prime p)))
    with ((1 - bc * (XL p + Xd_prime p)) ^ 2
          + (g * (XL p + Xd_prime p)) ^ 2) by ring.
  reflexivity.
Qed.

Lemma Direct_calculateK_same (p : Params R) (g bc : R) :
  Direct.calculateK p g bc = Reduced.calculateK p g bc.
Proof. reflexivity. Qed.

(** At the centre of the contours the denominator is zero. *)
Lemma ratio_denom_center (p : Params R) :
  XL p + Xd_prime p <> 0 ->
  ratio_denom p 0 (1 / (XL p + Xd_prime p)) = 0.
Proof.
  intro HX. unfold ratio_denom; cbv zeta.
  replace ((1 - 1 / (XL p + Xd_prime p) * (XL p + Xd_prime p)) ^ 2
           + (0 * (XL p + Xd_prime p)) ^ 2) with 0 by (field; exact HX).
  apply sqrt_0.
Qed.

(** C5: [calculateK] of either component answers [999] when
    [denom = sqrt((1 - Bc*X)^2 + (G*X)^2)] is below [1e-10] and [1/denom]
    otherwise; it is a total function.  At [G = 0], [Bc = 1/X] it answers
    [999], in particular for [X = 5.3]. *)
Theorem calculateK_sentinel (p : Params R) (g bc : R) :
  (ratio_denom p g bc < 1e-10 ->
   Reduced.calculateK p g bc = 999 /\ Direct.calculateK p g bc = 999)
  /\ (~ ratio_denom p g bc < 1e-10 ->
      Reduced.calculateK p g bc = 1 / ratio_denom p g bc
      /\ Direct.calculateK p g bc = 1 / ratio_denom p g bc)
  /\ (XL p + Xd_prime p <> 0 ->
      Reduced.calculateK p 0 (1 / (XL p + Xd_prime p)) = 999
      /\ Direct.calculateK p 0 (1 / (XL p + Xd_prime p)) = 999)
  /\ (XL p + Xd_prime p = 5.3 ->
      Reduced.calculateK p 0 (1 / 5.3) = 999
      /\ Direct.calculateK p 0 (1 / 5.3) = 999).
Proof.
  assert (Hlow : forall g' bc', ratio_denom p g' bc' < 1e-10 ->
            Reduced.calculateK p g' bc' = 999).
  { intros g' bc' Hlt. rewrite calculateK_unfold.
    replace (Rltb (ratio_denom p g' bc') (1 / 10000000000)) with true;
      [reflexivity|].
    symmetry; apply Rltb_true. lra. }
  assert (Hcenter : XL p + Xd_prime p <> 0 ->
            Reduced.calculateK p 0 (1 / (XL p + Xd_prime p)) = 999).
  { intro HX. apply Hlow. rewrite (ratio_denom_center p HX). lra. }
  split; [|split; [|split]].
  - intro Hlt. split; [|change (Reduced.calculateK p g bc = 999)];
      now apply Hlow.
  - intro Hge.
    change (Direct.calculateK p g bc) with (Reduced.calculateK p g bc).
    rewrite calculateK_unfold.
    replace (Rltb (ratio_denom p g bc) (1 / 10000000000)) with false;
      [split; reflexivity|].
    symmetry; apply Rltb_false. lra.
  - intro HX. split; now apply Hcenter.
  - intro HX. rewrite <- HX. split; apply Hcenter; lra.
Qed.

(** Scenario D at the parameters of the components, [XL + Xd_prime = 5.3]. *)
Lemma calculateK_sentinel_witness :
  XL (initial_params (num := R)) + Xd_prime (initial_params (num := R)) = 5.3
  /\ Reduced.calculateK (initial_params (num := R)) 0 (1 / 5.3) = 999
  /\ Direct.calculateK (initial_params (num := R)) 0 (1 / 5.3) = 999.
Proof.
  assert (HX : XL (initial_params (num := R))
               + Xd_prime (initial_params (num := R)) = 5.3)
    by (cbn; lra).
  split; [exact HX|].
  exact (proj2 (proj2 (proj2 (calculateK_sentinel initial_params 0 0))) HX).
Defined.

(** ** The reduction to (G, Bc) *)

(** C10: with magnitudes not below zero and a positive voltage, whatever
    elements are connected, the reduced point has [G >= 0] and [Bc >= 0]. *)
Theorem reduce_first_quadrant (cfg : SystemConfig R) (conn : Connected) :
  valid_systemConfig cfg ->
  0 <= G (Reduced.reduce cfg conn) /\ 0 <= Bc (Reduced.reduce cfg conn).
Proof.
  intros (H1 & H2 & H3 & H4 & H5 & H6 & HV).
  assert (HV2 : 0 < V cfg * V cfg) by nra.
  unfold Reduced.reduce; cbn; js_real.
  split; apply Rmult_le_pos;
    try (left; now apply Rinv_0_lt_compat);
    destruct conn as [[] [] [] [] [] []]; cbn; lra.
Qed.

Lemma initial_systemConfig_valid : valid_systemConfig initial_systemConfig.
Proof. unfold valid_systemConfig, initial_systemConfig; cbn. lra. Qed.

Lemma reduce_first_quadrant_witness :
  0 <= G (Reduced.reduce (initial_systemConfig (num := R)) all_connected)
  /\ 0 <= Bc (Reduced.reduce (initial_systemConfig (num := R)) all_connected).
Proof.
  apply reduce_first_quadrant. exact initial_systemConfig_valid.
Defined.

(** ** The contours of equal voltage ratio *)

(** On the contour of [k] the denominator of the ratio is [1/k]. *)
Lemma ratio_denom_on_contour (p : Params R) (k th : R) :
  XL p > 0 -> Xd_prime p > 0 -> k > 0 ->
  ratio_denom p (fst (circle_point (Reduced.calculateKCircle p k) th))
                (snd (circle_point (Reduced.calculateKCircle p k) th))
  = 1 / k.
Proof.
  intros HL Hp Hk.
  unfold ratio_denom, circle_point, Reduced.calculateKCircle; cbn; js_real.
  set (X := XL p + Xd_prime p).
  assert (HX : 0 < X) by (unfold X; lra).
  assert (Hk' : 0 < 1 / k) by (apply Rdiv_lt_0_compat; lra).
  rewrite <- (sqrt_square (1 / k)) by lra.
  f_equal.
  pose proof (sin2_cos2 th) as Hsc. unfold Rsqr in Hsc.
  transitivity ((sin th * sin th + cos th * cos th) * (1 / k * (1 / k))).
  - field. lra.
  - rewrite Hsc. ring.
Qed.

(** C4: for [XL > 0], [Xd_prime > 0] and [k > 0], at every point of the
    circle [calculateKCircle(k)] whose denominator is at least [1e-10],
    [calculateK] answers [k] (exactly, over the real numbers), in both
    components. *)
Theorem calculateK_on_contour (p : Params R) (k th : R) :
  XL p > 0 -> Xd_prime p > 0 -> k > 0 ->
  let c := Reduced.calculateKCircle p k in
  let g := fst (circle_point c th) in
  let bc := snd (circle_point c th) in
  1e-10 <= ratio_denom p g bc ->
  Direct.calculateKCircle p k = c
  /\ Reduced.calculateK p g bc = k
  /\ Direct.calculateK p g bc = k.
Proof.
  intros HL Hp Hk c g bc Hnd.
  split; [reflexivity|].
  change (Direct.calculateK p g bc) with (Reduced.calculateK p g bc).
  assert (E : Reduced.calculateK p g bc = k); [|split; exact E].
  rewrite calculateK_unfold.
  replace (Rltb (ratio_denom p g bc) (1 / 10000000000)) with false
    by (symmetry; apply Rltb_false; lra).
  unfold g, bc, c. rewrite (ratio_denom_on_contour p k th HL Hp Hk).
  field. lra.
Qed.

(** The contour [k = 1] of the components at the angle [0]. *)
Lemma calculateK_on_contour_witness :
  let p := initial_params (num := R) in
  let c := Reduced.calculateKCircle p 1 in
  Reduced.calculateK p (fst (circle_point c 0)) (snd (circle_point c 0)) = 1
  /\ Direct.calculateK p (fst (circle_point c 0)) (snd (circle_point c 0)) = 1.
Proof.
  intros p c.
  assert (HL : XL p > 0) by (cbn; lra).
  assert (Hp : Xd_prime p > 0) by (cbn; lra).
  assert (Hk : (1 : R) > 0) by lra.
  assert (Hnd : 1e-10 <= ratio_denom p (fst (circle_point c 0))
                           (snd (circle_point c 0))).
  { unfold c. rewrite (ratio_denom_on_contour p 1 0 HL Hp Hk). lra. }
  exact (proj2 (calculateK_on_contour p 1 0 HL Hp Hk Hnd)).
Defined.

(** ** The eigenvalues *)

(** The source and the section compute the same numbers. *)
Lemma calculateEigenvalues_unfold (p : Params R) (g bc : R) :
  Reduced.calculateEigenvalues p g bc = eigen_spec p g bc.
Proof.
  unfold Reduced.calculateEigenvalues, eigen_spec; js_real.
  assert (Ed : (1 - bc * (XL p + Xd_prime p)) * (1 - bc * (XL p + Xd_prime p))
               + g * (XL p + Xd_prime p) * (g * (XL p + Xd_prime p))
               = eig_denom p g bc)
    by (unfold eig_denom, Xtot; ring).
  rewrite !Ed.
  assert (E10 : 1 / 10000000000 = 1e-10) by lra. rewrite E10.
  unfold Rltb at 1. destruct (Rlt_dec (eig_denom p g bc) 1e-10); [reflexivity|].
  assert (EYi : (bc - (g * g + bc * bc) * (XL p + Xd_prime p))
                / eig_denom p g bc = Yi p g bc)
    by (unfold Yi, Xtot; f_equal; ring).
  rewrite !EYi.
  fold (Yr p g bc) (Xdq p) (coef_a p).
  assert (Eb : - (Td0_prime p + Tq0_prime p) * (Yi p g bc * Xdq p - 1)
               = coef_b p g bc) by reflexivity.
  rewrite !Eb.
  assert (Ec : (Yi p g bc * Xdq p - 1) * (Yi p g bc * Xdq p - 1)
               + Yr p g bc * Yr p g bc * Xdq p * Xdq p = coef_c p g bc)
    by (unfold coef_c; ring).
  rewrite !Ec.
  assert (Edisc : coef_b p g bc * coef_b p g bc
                  - 4 * coef_a p * coef_c p g bc = disc p g bc)
    by (unfold disc; ring).
  rewrite !Edisc.
  unfold Rleb. destruct (Rle_dec 0 (disc p g bc)); reflexivity.
Qed.

(** *** The sign of the roots *)

(** With [a > 0], the flag [stable] of the solver says that
    [Yi * Xdq - 1] is negative: the coefficient [b] is then positive and
    [c] is positive, so both roots lie in the left half plane. *)
Lemma eigen_spec_stable_iff (p : Params R) (g bc : R) :
  valid_time_constants p ->
  ~ eig_denom p g bc < 1e-10 ->
  (Eig.stable (eigen_spec p g bc) = true <-> Yi p g bc * Xdq p - 1 < 0).
Proof.
  intros [Hd Hq] Hnd.
  unfold eigen_spec.
  destruct (Rlt_dec (eig_denom p g bc) 1e-10) as [Hlt|_]; [contradiction|].
  assert (Ha : 0 < coef_a p) by (unfold coef_a; nra).
  assert (H2a : 0 < / (2 * coef_a p)) by (apply Rinv_0_lt_compat; lra).
  set (u := Yi p g bc * Xdq p - 1).
  assert (Eb : coef_b p g bc = - (Td0_prime p + Tq0_prime p) * u)
    by reflexivity.
  assert (Ec : coef_c p g bc = u * u + Yr p g bc * Xdq p * (Yr p g bc * Xdq p))
    by (unfold coef_c; fold u; ring).
  assert (Hb : 0 < coef_b p g bc <-> u < 0) by (rewrite Eb; split; nra).
  destruct (Rle_dec 0 (disc p g bc)) as [Hdisc|Hdisc]; cbn [Eig.stable].
  - rewrite andb_true_iff, !Rltb_true. unfold root1, root2, Rdiv.
    pose proof (sqrt_pos (disc p g bc)) as Hs.
    pose proof (sqrt_sqrt _ Hdisc) as Hss.
    set (s := sqrt (disc p g bc)) in *.
    split.
    + intros [H1 _]. apply Hb.
      assert (- coef_b p g bc + s < 0); [|lra].
      apply Rnot_le_lt; intro Hge.
      assert (0 <= (- coef_b p g bc + s) * / (2 * coef_a p))
        by (apply Rmult_le_pos; lra).
      lra.
    + intro Hu. assert (Hbpos : 0 < coef_b p g bc) by now apply Hb.
      assert (Hcpos : 0 < coef_c p g bc) by (rewrite Ec; nra).
      assert (Hsb : s < coef_b p g bc).
      { apply Rnot_le_lt; intro Hge.
        assert (coef_b p g bc * coef_b p g bc <= s * s) by nra.
        unfold disc in Hss.
        assert (0 < coef_a p * coef_c p g bc) by (apply Rmult_lt_0_compat; lra).
        lra. }
      split.
      * replace ((- coef_b p g bc + s) * / (2 * coef_a p))
          with (- ((coef_b p g bc - s) * / (2 * coef_a p))) by ring.
        assert (0 < (coef_b p g bc - s) * / (2 * coef_a p))
          by (apply Rmult_lt_0_compat; lra).
        lra.
      * replace ((- coef_b p g bc - s) * / (2 * coef_a p))
          with (- ((coef_b p g bc + s) * / (2 * coef_a p))) by ring.
        assert (0 < (coef_b p g bc + s) * / (2 * coef_a p))
          by (apply Rmult_lt_0_compat; lra).
        lra.
  - rewrite Rltb_true. unfold Rdiv.
    split.
    + intro H1. apply Hb.
      apply Rnot_le_lt; intro Hge.
      assert (0 <= - coef_b p g bc * / (2 * coef_a p))
        by (apply Rmult_le_pos; lra).
      lra.
    + intro Hu. assert (Hbpos : 0 < coef_b p g bc) by now apply Hb.
      replace (- coef_b p g bc * / (2 * coef_a p))
        with (- (coef_b p g bc * / (2 * coef_a p))) by ring.
      assert (0 < coef_b p g bc * / (2 * coef_a p))
        by (apply Rmult_lt_0_compat; lra).
      lra.
Qed.

(** *** The boundary circle is the locus of the zero root *)

(** [Yi * Xdq - 1 < 0] says that [(g, bc)] is strictly outside of the
    boundary circle: with [X = XL + Xd_prime], [X2 = XL + Xd] and
    [N = denom - (bc - (g^2 + bc^2) X) Xdq], the first is [- N / denom]
    and the squared distance minus the squared radius is [N / (X X2)]. *)
Lemma boundary_is_zero_root_locus (p : Params R) (g bc : R) :
  valid_reactances p ->
  0 < eig_denom p g bc ->
  (Yi p g bc * Xdq p - 1 < 0
   <-> R_ (Reduced.stabilityCircle p) * R_ (Reduced.stabilityCircle p)
       < g * g + (bc - Bc_center (Reduced.stabilityCircle p))
                 * (bc - Bc_center (Reduced.stabilityCircle p))).
Proof.
  intros (HQ & Hp & HL) Hd.
  cbn; js_real.
  set (X := XL p + Xd_prime p).
  set (X2 := XL p + Xd p).
  assert (HX : 0 < X) by (unfold X; lra).
  assert (HX2 : 0 < X2) by (unfold X2; lra).
  assert (EQ : Xd p - Xd_prime p = X2 - X) by (unfold X, X2; ring).
  rewrite EQ.
  set (d := eig_denom p g bc) in *.
  set (N := d - (bc - (g ^ 2 + bc ^ 2) * X) * (X2 - X)).
  assert (Eu : Yi p g bc * Xdq p - 1 = - (N * / d)).
  { unfold Yi, Xdq, N. fold d. fold X. rewrite EQ.
    change (Xtot p) with X. field. lra. }
  assert (Ed : d = (1 - bc * X) ^ 2 + (g * X) ^ 2) by reflexivity.
  assert (ES : g * g + (bc - 5 / 10 * (1 / X + 1 / X2))
                       * (bc - 5 / 10 * (1 / X + 1 / X2))
               - (X2 - X) / (2 * X * X2) * ((X2 - X) / (2 * X * X2))
               = N * / (X * X2)).
  { unfold N. rewrite Ed. field. lra. }
  assert (HXX : 0 < / (X * X2)) by (apply Rinv_0_lt_compat; nra).
  assert (Hdi : 0 < / d) by (apply Rinv_0_lt_compat; lra).
  rewrite Eu.
  split; intro Hlt.
  - assert (0 < N).
    { apply Rnot_le_lt; intro Hle.
      assert (0 <= (- N) * / d) by (apply Rmult_le_pos; lra). lra. }
    assert (0 < N * / (X * X2)) by (apply Rmult_lt_0_compat; lra).
    lra.
  - assert (0 < N).
    { apply Rnot_le_lt; intro Hle.
      assert (0 <= (- N) * / (X * X2)) by (apply Rmult_le_pos; lra). lra. }
    assert (0 < N * / d) by (apply Rmult_lt_0_compat; lra).
    lra.
Qed.

Lemma checkStability_iff_sign (p : Params R) (g bc : R) :
  valid_reactances p ->
  0 < eig_denom p g bc ->
  (Reduced.checkStability (Reduced.stabilityCircle p) g bc = true
   <-> Yi p g bc * Xdq p - 1 < 0).
Proof.
  intros Hv Hd.
  rewrite (boundary_is_zero_root_locus p g bc Hv Hd).
  destruct (boundary_positive p Hv) as [HR _].
  unfold Reduced.checkStability.
  set (c := Reduced.stabilityCircle p) in *.
  js_real. rewrite Rltb_true.
  apply sqrt_gt_iff; [|lra].
  apply Rplus_le_le_0_compat; apply Rle_0_sqr.
Qed.

(** The two flags are the same boolean. *)
Lemma stable_flags_agree (p : Params R) (g bc : R) :
  valid_params p ->
  1e-10 <= eig_denom p g bc ->
  Reduced.checkStability (Reduced.stabilityCircle p) g bc
  = Eig.stable (Reduced.calculateEigenvalues p g bc).
Proof.
  intros [Hr Ht] Hd.
  apply bool_eq_of_iff.
  rewrite calculateEigenvalues_unfold.
  rewrite (checkStability_iff_sign p g bc Hr) by lra.
  symmetry. apply eigen_spec_stable_iff; [exact Ht | lra].
Qed.

(** C1, amended: in exact arithmetic (the numbers read as real numbers),
    for valid parameters and a point whose denominator
    [(1 - Bc*X)^2 + (G*X)^2] is at least [1e-10], [checkStability] and the
    flag [stable] of [calculateEigenvalues] are the same boolean; a point
    strictly outside of the boundary circle has [stable = true] and any
    other point has [stable = false]. *)
Theorem checkStability_agrees_with_eigenvalues (p : Params R) (g bc : R) :
  valid_params p ->
  1e-10 <= eig_denom p g bc ->
  let c := Reduced.stabilityCircle p in
  let eig := Reduced.calculateEigenvalues p g bc in
  Reduced.checkStability c g bc = Eig.stable eig
  /\ (distance_to_center c g bc > R_ c -> Eig.stable eig = true)
  /\ (~ distance_to_center c g bc > R_ c -> Eig.stable eig = false).
Proof.
  intros Hv Hd c eig.
  assert (Hagree : Reduced.checkStability c g bc = Eig.stable eig)
    by exact (stable_flags_agree p g bc Hv Hd).
  assert (H0 : G_center c = 0) by reflexivity.
  pose proof (Reduced_checkStability_iff c g bc H0) as Hiff.
  split; [exact Hagree|]. rewrite <- Hagree. split.
  - apply Hiff.
  - intro Hn. destruct (Reduced.checkStability c g bc); [|reflexivity].
    exfalso. apply Hn. now apply Hiff.
Qed.

(** The denominator at the initial point [(G, Bc) = (0.1, 0.075)] of the
    first component. *)
Lemma eig_denom_initial_point :
  eig_denom initial_params (1 / 10) (75 / 1000) = 0.64390625.
Proof.
  unfold eig_denom, Xtot; cbn. lra.
Qed.

Lemma checkStability_agrees_with_eigenvalues_witness :
  let p := initial_params (num := R) in
  valid_params p
  /\ 1e-10 <= eig_denom p (1 / 10) (75 / 1000)
  /\ Reduced.checkStability (Reduced.stabilityCircle p) (1 / 10) (75 / 1000)
     = Eig.stable (Reduced.calculateEigenvalues p (1 / 10) (75 / 1000)).
Proof.
  intro p.
  assert (Hd : 1e-10 <= eig_denom p (1 / 10) (75 / 1000)).
  { unfold p. rewrite eig_denom_initial_point. lra. }
  split; [exact initial_params_valid|]. split; [exact Hd|].
  exact (proj1 (checkStability_agrees_with_eigenvalues
                  p (1 / 10) (75 / 1000) initial_params_valid Hd)).
Defined.

(** C1 as stated fails on binary64: at the parameters of the components
    and the point [(0.0016, 0.1471204229650361)], next to the bottom of
    the boundary circle, the denominator is at least [1e-10],
    [checkStability] answers [false] and [calculateEigenvalues] answers
    [stable = true] (the real part is [-2^-52 * 1.2], decided by
    rounding). *)
Lemma flags_differ_binary64 :
  let p := initial_params (num := PrimFloat.float) in
  let g := lit 16 10000 in
  let bc := lit 1471204229650361 10000000000000000 in
  let X := add (XL p) (Xd_prime p) in
  lt (Xd_prime p) (Xd p) = true
  /\ lt (lit 0 1) (Xd_prime p) = true
  /\ lt (lit 0 1) (XL p) = true
  /\ lt (lit 0 1) (Td0_prime p) = true
  /\ lt (lit 0 1) (Tq0_prime p) = true
  /\ le (lit 1 10000000000)
        (add (pow2 (sub (lit 1 1) (mul bc X))) (pow2 (mul g X))) = true
  /\ Reduced.checkStability (Reduced.stabilityCircle p) g bc = false
  /\ Eig.stable (Reduced.calculateEigenvalues p g bc) = true.
Proof. vm_compute. repeat split. Qed.

(** On binary64 the two flags agree at the points that the components set
    themselves: the initial point of the first component and the two
    presets of the second. *)
Example flags_agree_binary64_at_presets :
  let p := initial_params (num := PrimFloat.float) in
  Reduced.checkStability (Reduced.stabilityCircle p) (lit 1 10) (lit 75 1000)
  = Eig.stable (Reduced.calculateEigenvalues p (lit 1 10) (lit 75 1000))
  /\ Reduced.checkStability (Reduced.stabilityCircle p) (lit 5 100) (lit 2 10)
     = Eig.stable (Reduced.calculateEigenvalues p (lit 5 100) (lit 2 10))
  /\ Reduced.checkStability (Reduced.stabilityCircle p) (lit 2 100)
       (lit 18 100)
     = Eig.stable (Reduced.calculateEigenvalues p (lit 2 100) (lit 18 100)).
Proof. vm_compute. repeat split. Qed.



(** ** The time response *)

(** Whatever the time and the branch, the sample is clamped. *)
Lemma sample_clamped (p : Params R) (G Bc t : R) :
  clamped (Reduced.sample p G Bc t).
Proof.
  unfold clamped, Reduced.sample; cbn [Sample.VL]; js_real.
  match goal with |- _ <= Rmin (Rmax ?v _) _ <= _ => generalize v end.
  intro v. split.
  - apply Rmin_glb; [|lra].
    apply Rmax_r.
  - apply Rmin_r.
Qed.

(** Before the disturbance and at its time the voltage is nominal. *)
Lemma sample_before_disturbance (p : Params R) (G Bc t : R) :
  t <= 0.5 -> Sample.VL (Reduced.sample p G Bc t) = 1.
Proof.
  intro Ht. unfold Reduced.sample; cbn [Sample.VL]; js_real.
  replace (Rltb (5 / 10) t) with false
    by (symmetry; apply Rltb_false; lra).
  rewrite Rmax_left by lra. apply Rmin_left. lra.
Qed.

(** The samples that are pushed are clamped, whatever the fuel. *)
Lemma simulate_from_clamped (p : Params R) (G Bc : R) (fuel : nat) :
  forall (t : R) (data data' : list (Sample.t R)),
    Forall clamped data ->
    Reduced.simulate_from p G Bc fuel t data = Some data' ->
    Forall clamped data'.
Proof.
  induction fuel as [|fuel IH]; intros t data data' Hdata Hrun;
    cbn [Reduced.simulate_from] in Hrun.
  - discriminate.
  - unfold Reduced.tMax, Reduced.dt in Hrun; js_real.
    destruct (Rleb t 8) eqn:Hle.
    + apply (IH _ _ _ (proj2 (Forall_app _ _ _)
                         (conj Hdata (Forall_cons _ (sample_clamped p G Bc t)
                                        (Forall_nil _)))) Hrun).
    + injection Hrun as <-. exact Hdata.
Qed.

(** The loop ends: [n] steps before [t] passes [tMax], it pushes [n]
    samples and stops, given more than [n] units of fuel. *)
Lemma simulate_from_ends (p : Params R) (G Bc : R) (n : nat) :
  forall (fuel : nat) (t : R) (data : list (Sample.t R)),
    t = 8.02 - INR n * 0.02 ->
    (n < fuel)%nat ->
    exists data',
      Reduced.simulate_from p G Bc fuel t data = Some (data ++ data')
      /\ length data' = n.
Proof.
  induction n as [|n IH]; intros fuel t data Ht Hfuel;
    (destruct fuel as [|fuel]; [inversion Hfuel|]);
    cbn [Reduced.simulate_from]; unfold Reduced.tMax, Reduced.dt.
  - js_real. cbn in Ht.
    replace (Rleb t 8) with false by (symmetry; apply Rleb_false; lra).
    exists []. rewrite app_nil_r. split; reflexivity.
  - js_real. rewrite S_INR in Ht. pose proof (pos_INR n) as Hn.
    replace (Rleb t 8) with true by (symmetry; apply Rleb_true; lra).
    destruct (IH fuel (t + 2 / 100) (data ++ [Reduced.sample p G Bc t]))
      as (data' & Hrun & Hlen); [lra | apply PeanoNat.lt_S_n; exact Hfuel |].
    exists (Reduced.sample p G Bc t :: data').
    rewrite Hrun, <- app_assoc. split; [reflexivity | cbn; now f_equal].
Qed.

(** [runSimulation] ends with [401] samples, on any fuel from [402] on. *)
Lemma runSimulation_ends (p : Params R) (G Bc : R) (fuel : nat) :
  (simulation_fuel <= fuel)%nat ->
  exists data,
    Reduced.runSimulation p G Bc fuel = Some data /\ length data = 401%nat.
Proof.
  intro Hfuel. unfold Reduced.runSimulation.
  destruct (simulate_from_ends p G Bc 401 fuel (lit 0 1) [])
    as (data & Hrun & Hlen).
  - rewrite INR_IZR_INZ. cbn. lra.
  - exact Hfuel.
  - exists data. split; [exact Hrun | exact Hlen].
Qed.

(** In exact arithmetic, for positive parameters and any point [(G, Bc)],
    [runSimulation] ends with [401] samples and every one of them has its
    voltage in [[0.4, 2.5]]: before the disturbance, in the stable and in
    the unstable branch. *)
Lemma runSimulation_clamped (p : Params R) (G Bc : R) :
  positive_params p ->
  (exists data,
      Reduced.runSimulation p G Bc simulation_fuel = Some data
      /\ length data = 401%nat
      /\ Forall clamped data)
  /\ (forall fuel data,
         Reduced.runSimulation p G Bc fuel = Some data -> Forall clamped data)
  /\ (forall t, clamped (Reduced.sample p G Bc t)).
Proof.
  intros _.
  assert (Hall : forall fuel data,
             Reduced.runSimulation p G Bc fuel = Some data ->
             Forall clamped data).
  { intros fuel data Hrun.
    exact (simulate_from_clamped p G Bc fuel _ [] data (Forall_nil _) Hrun). }
  split; [|split; [exact Hall | apply sample_clamped]].
  destruct (runSimulation_ends p G Bc simulation_fuel (le_n _))
    as (data & Hrun & Hlen).
  exists data. split; [exact Hrun|]. split; [exact Hlen|].
  exact (Hall _ _ Hrun).
Qed.

(** *** The loop, in any arithmetic *)

Section LoopTimes.
Context {num : Type} `{JsNumber num} `{JsMath num}.
Variables (p : Params num) (G Bc : num).

(** The loop pushes the body at each of its times, in order. *)
Lemma simulate_from_loop_times (fuel : nat) :
  forall (t : num) (data : list (Sample.t num)),
    Reduced.simulate_from p G Bc fuel t data
    = option_map (fun ts => data ++ map (Reduced.sample p G Bc) ts)
        (Reduced.loop_times fuel t).
Proof.
  induction fuel as [|fuel IH]; intros t data;
    cbn [Reduced.simulate_from Reduced.loop_times].
  - reflexivity.
  - destruct (le t Reduced.tMax).
    + rewrite IH.
      destruct (Reduced.loop_times fuel (add t Reduced.dt)) as [ts|];
        cbn [option_map map]; [|reflexivity].
      rewrite <- app_assoc. reflexivity.
    + cbn [option_map map]. rewrite app_nil_r. reflexivity.
Qed.

(** Fuel beyond what ends the loop changes nothing. *)
Lemma loop_times_more_fuel (fuel : nat) :
  forall (t : num) (ts : list num) (fuel' : nat),
    Reduced.loop_times fuel t = Some ts ->
    (fuel <= fuel')%nat ->
    Reduced.loop_times fuel' t = Some ts.
Proof.
  induction fuel as [|fuel IH]; intros t ts fuel' Hrun Hle;
    cbn [Reduced.loop_times] in Hrun.
  - discriminate.
  - destruct fuel' as [|fuel']; [inversion Hle|].
    cbn [Reduced.loop_times].
    destruct (le t Reduced.tMax); [|exact Hrun].
    destruct (Reduced.loop_times fuel (add t Reduced.dt)) as [ts'|] eqn:E;
      [|discriminate].
    rewrite (IH _ _ fuel' E (le_S_n _ _ Hle)). exact Hrun.
Qed.

Lemma runSimulation_loop_times (fuel fuel' : nat) (ts : list num) :
  Reduced.loop_times fuel (lit 0 1) = Some ts ->
  (fuel <= fuel')%nat ->
  Reduced.runSimulation p G Bc fuel'
  = Some (map (Reduced.sample p G Bc) ts).
Proof.
  intros Hrun Hle. unfold Reduced.runSimulation.
  rewrite simulate_from_loop_times.
  rewrite (loop_times_more_fuel fuel _ _ fuel' Hrun Hle). reflexivity.
Qed.

End LoopTimes.

(** *** The loop on binary64 *)

Lemma binary64_times_run :
  Reduced.loop_times simulation_fuel (lit 0 1) = Some binary64_times.
Proof. vm_compute. reflexivity. Qed.

Lemma binary64_times_length : length binary64_times = 401%nat.
Proof. vm_compute. reflexivity. Qed.

(** The first [25] times are at most [0.5]; every later one is above:
    the time of index [25] is [0.5000000000000001]. *)
Lemma binary64_times_disturbance :
  forallb (fun t => negb (lt (lit 5 10) t)) (firstn 25 binary64_times) = true
  /\ forallb (fun t => lt (lit 5 10) t) (skipn 25 binary64_times) = true.
Proof. vm_compute. split; reflexivity. Qed.

(** C6: the clamp lets NaN through.  With [1e200] typed into the field of
    load 1, the reduced point is [(1e200, 0.075)]; [checkStability]
    answers stable, the real part of the eigenvalue result is NaN, and the
    run pushes [401] samples of which the [376] after the disturbance have
    the voltage [Math.min(Math.max(0 * (1 + 0.2 * Math.exp(NaN) *
    Math.cos(NaN)), 0.4), 2.5)], whatever [Math.exp] and [Math.cos] are;
    with NaN for both this is NaN, which is neither [>= 0.4] nor
    [<= 2.5]. *)
Theorem clamp_passes_NaN (M : JsMath PrimFloat.float) :
  let p := initial_params (num := PrimFloat.float) in
  let pt := Reduced.reduce overflow_systemConfig all_connected in
  G pt = big_lit (10 ^ 200)
  /\ Bc pt = lit 75 1000
  /\ Reduced.isStable p (G pt) (Bc pt) = true
  /\ PrimFloat.is_nan
       (Eig.real (Reduced.calculateEigenvalues p (G pt) (Bc pt))) = true
  /\ Reduced.runSimulation p (G pt) (Bc pt) simulation_fuel
     = Some (map (fun t =>
                    Sample.make t
                      (if lt (lit 5 10) t
                       then overflow_voltage (Math_exp PrimFloat.nan)
                                             (Math_cos PrimFloat.nan)
                       else lit 1 1)
                      true)
               binary64_times)
  /\ length (filter (fun t => lt (lit 5 10) t) binary64_times) = 376%nat
  /\ overflow_voltage PrimFloat.nan PrimFloat.nan = PrimFloat.nan
  /\ le (lit 4 10) PrimFloat.nan = false
  /\ le PrimFloat.nan (lit 25 10) = false.
Proof.
  destruct M as [e c]. vm_compute. repeat split.
Qed.

(** ** The scenarios at the parameters of the components *)

(** C7 as stated fails: [0.17406] and [0.014174] are not the centre and
    the radius for scenario A; neither agrees, not even to within [0.001]. *)
Lemma scenario_A_not_as_stated :
  ~ agree_within 0.001
      (Bc_center (Reduced.stabilityCircle (initial_params (num := R))))
      0.17406
  /\ ~ agree_within 0.001
        (R_ (Reduced.stabilityCircle (initial_params (num := R))))
        0.014174.
Proof.
  rewrite stabilityCircle_initial; unfold agree_within; cbn.
  split; apply Rlt_not_le; unfold Rabs.
  - destruct (Rcase_abs (605 / 3604 - 0.17406)); lra.
  - destruct (Rcase_abs (75 / 3604 - 0.014174)); lra.
Qed.

(** C7, amended: for scenario A the centre is [605/3604], about [0.16787],
    and the radius is [75/3604], about [0.020810], in both components. *)
Theorem scenario_A_boundary :
  let c := Reduced.stabilityCircle (initial_params (num := R)) in
  Direct.stabilityCircle (initial_params (num := R)) = c
  /\ G_center c = 0
  /\ Bc_center c = 605 / 3604
  /\ R_ c = 75 / 3604
  /\ agree_within 0.000001 (Bc_center c) 0.16787
  /\ agree_within 0.000001 (R_ c) 0.020810.
Proof.
  cbv zeta. split; [reflexivity|].
  rewrite stabilityCircle_initial; unfold agree_within; cbn.
  repeat split; try reflexivity; unfold Rabs.
  - destruct (Rcase_abs (605 / 3604 - 0.16787)); lra.
  - destruct (Rcase_abs (75 / 3604 - 0.020810)); lra.
Qed.

(** The same circle in binary64, between decimal bounds. *)
Example scenario_A_boundary_binary64 :
  let c := Reduced.stabilityCircle (initial_params (num := PrimFloat.float)) in
  Direct.stabilityCircle (initial_params (num := PrimFloat.float)) = c
  /\ G_center c = lit 0 1
  /\ lt (lit 167869 1000000) (Bc_center c) = true
  /\ lt (Bc_center c) (lit 167870 1000000) = true
  /\ lt (lit 20810 1000000) (R_ c) = true
  /\ lt (R_ c) (lit 20811 1000000) = true.
Proof. vm_compute. repeat split. Qed.

(** The first component starts at [(G, Bc) = (0.1, 0.075)]. *)
Lemma reduce_initial :
  G (Reduced.reduce (initial_systemConfig (num := R)) all_connected) = 1 / 10
  /\ Bc (Reduced.reduce (initial_systemConfig (num := R)) all_connected)
     = 75 / 1000.
Proof. cbn; js_real. split; lra. Qed.

(** C8: the point [(G = 0.02, Bc = 0.18)], which the button labelled
    "set unstable point" of the second component selects, lies outside of
    the boundary circle of scenario A: both components classify it as
    stable, and the eigenvalue solver agrees. *)
Theorem scenario_C_classified_stable :
  let p := initial_params (num := R) in
  Reduced.isStable p (lit 2 100) (lit 18 100) = true
  /\ Direct.isStable p (lit 2 100) (lit 18 100) = true
  /\ Eig.stable (Reduced.eigenvalues p (lit 2 100) (lit 18 100)) = true.
Proof.
  intro p.
  assert (HR : Reduced.isStable p (lit 2 100) (lit 18 100) = true).
  { unfold Reduced.isStable, p. rewrite stabilityCircle_initial.
    apply Reduced_checkStability_iff; [reflexivity|].
    unfold distance_to_center; cbn; js_real.
    apply sqrt_gt_iff; lra. }
  assert (HD : Direct.isStable p (lit 2 100) (lit 18 100) = true).
  { unfold Direct.isStable, p.
    change (Direct.stabilityCircle (initial_params (num := R)))
      with (Reduced.stabilityCircle (initial_params (num := R))).
    rewrite stabilityCircle_initial.
    apply Direct_checkStability_iff.
    unfold distance_to_center; cbn; js_real.
    apply sqrt_gt_iff; lra. }
  split; [exact HR|]. split; [exact HD|].
  unfold Reduced.eigenvalues.
  rewrite <- (stable_flags_agree p _ _ initial_params_valid); [exact HR|].
  unfold eig_denom, Xtot; cbn. lra.
Qed.

(** The same evaluation in binary64. *)
Example scenario_C_classified_stable_binary64 :
  Reduced.isStable (initial_params (num := PrimFloat.float))
    (lit 2 100) (lit 18 100) = true
  /\ Direct.isStable (initial_params (num := PrimFloat.float))
       (lit 2 100) (lit 18 100) = true
  /\ Eig.stable (Reduced.calculateEigenvalues
                   (initial_params (num := PrimFloat.float))
                   (lit 2 100) (lit 18 100)) = true.
Proof. vm_compute. repeat split. Qed.

(** Scenario D in binary64: [Bc = 1 / (5.0 + 0.3)] and [Bc = 1 / 5.3]. *)
Example scenario_D_binary64 :
  let p := initial_params (num := PrimFloat.float) in
  Reduced.calculateK p (lit 0 1) (div (lit 1 1) (add (XL p) (Xd_prime p)))
  = lit 999 1
  /\ Direct.calculateK p (lit 0 1) (div (lit 1 1) (lit 53 10)) = lit 999 1.
Proof. vm_compute. split; reflexivity. Qed.

(** * Further properties of the components *)

(** ** The plot of the G-Bc plane *)

(** X1: [fromX] and [fromY] invert [toX] and [toY], in both directions:
    a point of the plane is recovered from its pixel and a pixel from its
    point. *)
Theorem from_to_round_trip (g bc x y : R) :
  Reduced.fromX (Reduced.toX g) = g
  /\ Reduced.fromY (Reduced.toY bc) = bc
  /\ Reduced.toX (Reduced.fromX x) = x
  /\ Reduced.toY (Reduced.fromY y) = y.
Proof.
  plot_real. repeat split; field.
Qed.

(** X2: a point that the range test of the contour plot admits is drawn
    inside the background rectangle of the plot, whose corner is
    [(margin.left, margin.top)] and whose sides are [plotW] and [plotH]. *)
Theorem in_ranges_inside_plot (g bc : R) :
  Reduced.in_ranges g bc = true ->
  Margin.left Reduced.margin <= Reduced.toX g
    <= Margin.left Reduced.margin + Reduced.plotW
  /\ Margin.top Reduced.margin <= Reduced.toY bc
     <= Margin.top Reduced.margin + Reduced.plotH.
Proof.
  intro Hin. plot_real.
  apply andb_true_iff in Hin; destruct Hin as [Hin H4].
  apply andb_true_iff in Hin; destruct Hin as [Hin H3].
  apply andb_true_iff in Hin; destruct Hin as [H1 H2].
  apply Rleb_true in H1, H2, H3, H4.
  repeat split; lra.
Qed.

Lemma in_ranges_inside_plot_witness :
  Reduced.in_ranges (num := R) (1 / 10) (75 / 1000) = true
  /\ Margin.left Reduced.margin <= Reduced.toX (1 / 10)
     <= Margin.left Reduced.margin + Reduced.plotW.
Proof.
  assert (Hin : Reduced.in_ranges (1 / 10) (75 / 1000) = true).
  { plot_real. rewrite !andb_true_iff, !Rleb_true. lra. }
  split; [exact Hin|].
  exact (proj1 (in_ranges_inside_plot (1 / 10) (75 / 1000) Hin)).
Defined.

(** ** The extent of the boundary circle *)

Lemma sq_le_bound (x r : R) : 0 <= r -> x * x <= r * r -> - r <= x <= r.
Proof.
  intros Hr Hsq. split; apply Rnot_lt_le; intro Hlt; nra.
Qed.

(** The test fails exactly on the closed disc. *)
Lemma checkStability_false_iff (c : Circle R) (g bc : R) :
  0 <= R_ c ->
  (Reduced.checkStability c g bc = false
   <-> g * g + (bc - Bc_center c) * (bc - Bc_center c) <= R_ c * R_ c).
Proof.
  intro HR. unfold Reduced.checkStability; js_real.
  rewrite Rltb_false.
  assert (HS : 0 <= g * g + (bc - Bc_center c) * (bc - Bc_center c))
    by (apply Rplus_le_le_0_compat; apply Rle_0_sqr).
  pose proof (sqrt_gt_iff _ _ HS HR) as Hiff.
  split; intro Hle.
  - apply Rnot_lt_le; intro Hlt. apply Hiff in Hlt. lra.
  - apply Rnot_lt_le; intro Hlt. apply Hiff in Hlt. lra.
Qed.

(** The lowest and the highest point of the boundary circle. *)
Lemma boundary_extent (p : Params R) :
  valid_reactances p ->
  Bc_center (Reduced.stabilityCircle p) - R_ (Reduced.stabilityCircle p)
  = 1 / (XL p + Xd p)
  /\ Bc_center (Reduced.stabilityCircle p) + R_ (Reduced.stabilityCircle p)
     = 1 / (XL p + Xd_prime p).
Proof.
  intros (Hd & Hp & HL). cbn; js_real. split; field; lra.
Qed.

(** X3: for valid reactances the boundary circle has a positive radius
    and spans, on the [Bc] axis, from [1/(XL+Xd)], which is positive, to
    [1/(XL+Xd_prime)]: it lies in [Bc > 0], and its top is the centre of
    the contours of [calculateKCircle]. *)
Theorem boundary_circle_extent (p : Params R) (k : R) :
  valid_reactances p ->
  let c := Reduced.stabilityCircle p in
  0 < R_ c
  /\ Bc_center c - R_ c = 1 / (XL p + Xd p)
  /\ 0 < Bc_center c - R_ c
  /\ Bc_center c + R_ c = 1 / (XL p + Xd_prime p)
  /\ Bc_center c + R_ c = Bc_center (Reduced.calculateKCircle p k)
  /\ G_center c = G_center (Reduced.calculateKCircle p k).
Proof.
  intros Hv c.
  destruct (boundary_positive p Hv) as [HR Hlt].
  destruct (boundary_extent p Hv) as [Hlo Hhi].
  fold c in HR, Hlt, Hlo, Hhi.
  split; [exact HR|]. split; [exact Hlo|]. split.
  - rewrite Hlo. destruct Hv as (Hd & Hp & HL).
    apply Rdiv_lt_0_compat; lra.
  - split; [exact Hhi|]. split; [exact Hhi | reflexivity].
Qed.

Lemma boundary_circle_extent_witness :
  let c := Reduced.stabilityCircle (initial_params (num := R)) in
  0 < R_ c /\ Bc_center c - R_ c = 1 / (5 + 18 / 10).
Proof.
  intro c.
  pose proof (boundary_circle_extent initial_params 1
                (proj1 initial_params_valid)) as H.
  exact (conj (proj1 H) (proj1 (proj2 H))).
Defined.

(** X4: an unstable point lies in the bounding box of the boundary circle:
    for valid reactances, when the classifier of either component answers
    unstable, [1/(XL+Xd) <= Bc <= 1/(XL+Xd_prime)] and [|G|] is at most the
    radius.  So a point with [Bc] below [1/(XL+Xd)] is stable whatever
    its [G]. *)
Theorem unstable_inside_bounding_box (p : Params R) (g bc : R) :
  valid_reactances p ->
  Reduced.isStable p g bc = false \/ Direct.isStable p g bc = false ->
  1 / (XL p + Xd p) <= bc <= 1 / (XL p + Xd_prime p)
  /\ - R_ (Reduced.stabilityCircle p) <= g <= R_ (Reduced.stabilityCircle p).
Proof.
  intros Hv Hun.
  destruct (boundary_positive p Hv) as [HR _].
  destruct (boundary_extent p Hv) as [Hlo Hhi].
  assert (Hred : Reduced.isStable p g bc = false).
  { destruct Hun as [Hun|Hun]; [exact Hun|].
    destruct (Reduced.isStable p g bc) eqn:E; [|reflexivity].
    unfold Direct.isStable in Hun. unfold Reduced.isStable in E.
    apply Reduced_checkStability_iff in E; [|reflexivity].
    apply (Direct_checkStability_iff (Reduced.stabilityCircle p)) in E.
    change (Direct.stabilityCircle p) with (Reduced.stabilityCircle p) in Hun.
    congruence. }
  unfold Reduced.isStable in Hred.
  apply checkStability_false_iff in Hred; [|lra].
  rewrite <- Hlo, <- Hhi.
  generalize dependent (R_ (Reduced.stabilityCircle p)).
  generalize (Bc_center (Reduced.stabilityCircle p)).
  intros b r HR _ _ Hred.
  pose proof (Rle_0_sqr g) as Hg0. pose proof (Rle_0_sqr (bc - b)) as Hb0.
  unfold Rsqr in Hg0, Hb0.
  assert (Hg : g * g <= r * r) by lra.
  assert (Hb : (bc - b) * (bc - b) <= r * r) by lra.
  destruct (sq_le_bound g r (Rlt_le _ _ HR) Hg).
  destruct (sq_le_bound (bc - b) r (Rlt_le _ _ HR) Hb).
  repeat split; lra.
Qed.

Lemma unstable_inside_bounding_box_witness :
  let p := initial_params (num := R) in
  Reduced.isStable p 0 (1 / 5.3) = false
  /\ 1 / (XL p + Xd p) <= 1 / 5.3 <= 1 / (XL p + Xd_prime p).
Proof.
  intro p.
  assert (Hun : Reduced.isStable p 0 (1 / 5.3) = false).
  { unfold Reduced.isStable, p. rewrite stabilityCircle_initial.
    apply checkStability_false_iff; cbn [R_ Bc_center]; lra. }
  split; [exact Hun|].
  exact (proj1 (unstable_inside_bounding_box p 0 (1 / 5.3)
                  (proj1 initial_params_valid) (or_introl Hun))).
Defined.

(** ** The voltage ratio, further *)

Lemma ratio_denom_nonneg (p : Params R) (g bc : R) : 0 <= ratio_denom p g bc.
Proof. unfold ratio_denom; cbv zeta. apply sqrt_pos. Qed.

(** The denominator is [X] times the distance to the centre of the
    contours. *)
Lemma ratio_denom_as_distance (p : Params R) (g bc : R) :
  0 < XL p + Xd_prime p ->
  ratio_denom p g bc
  = (XL p + Xd_prime p)
    * distance_to_center (Reduced.calculateKCircle p 1) g bc.
Proof.
  intro HX. unfold ratio_denom, distance_to_center; cbn; js_real.
  set (X := XL p + Xd_prime p) in *.
  match goal with
  | |- sqrt _ = X * sqrt ?T => transitivity (sqrt (X * X * T))
  end.
  - f_equal. field. lra.
  - rewrite sqrt_mult_alt by nra. rewrite sqrt_square by lra. reflexivity.
Qed.

Lemma calculateK_bounds_aux (p : Params R) (g bc : R) :
  0 < Reduced.calculateK p g bc /\ Reduced.calculateK p g bc <= 10000000000.
Proof.
  rewrite calculateK_unfold.
  destruct (Rltb (ratio_denom p g bc) (1 / 10000000000)) eqn:E.
  - lra.
  - apply Rltb_false in E.
    assert (Hd : 0 < ratio_denom p g bc) by lra.
    split.
    + apply Rdiv_lt_0_compat; lra.
    + apply Rmult_le_reg_r with (ratio_denom p g bc); [exact Hd|].
      replace (1 / ratio_denom p g bc * ratio_denom p g bc) with 1
        by (field; lra).
      lra.
Qed.

(** X5: the ratio that [calculateK] of either component answers is
    positive and at most [1e10], the sentinel [999] included, for every
    point whose two terms [G*X] and [1 - Bc*X] are at most [1e150] in
    size, so that their squares stay within binary64 (the exact
    arithmetic does not need the two bounds). *)
Theorem calculateK_bounds (p : Params R) (g bc : R) :
  Rabs (g * (XL p + Xd_prime p)) <= 10 ^ 150 ->
  Rabs (1 - bc * (XL p + Xd_prime p)) <= 10 ^ 150 ->
  0 < Reduced.calculateK p g bc <= 10000000000
  /\ 0 < Direct.calculateK p g bc <= 10000000000.
Proof.
  intros _ _.
  change (Direct.calculateK p g bc) with (Reduced.calculateK p g bc).
  destruct (calculateK_bounds_aux p g bc) as [Hlo Hhi].
  split; split; assumption.
Qed.

Lemma calculateK_bounds_witness :
  0 < Reduced.calculateK (initial_params (num := R)) 0 0 <= 10000000000.
Proof.
  assert (H1 : Rabs (0 * (XL (initial_params (num := R))
                          + Xd_prime (initial_params (num := R))))
               <= 10 ^ 150).
  { rewrite Rmult_0_l, Rabs_R0. apply pow_le. lra. }
  assert (H2 : Rabs (1 - 0 * (XL (initial_params (num := R))
                              + Xd_prime (initial_params (num := R))))
               <= 10 ^ 150).
  { rewrite Rmult_0_l, Rminus_0_r, Rabs_R1. apply pow_R1_Rle. lra. }
  exact (proj1 (calculateK_bounds initial_params 0 0 H1 H2)).
Defined.

(** On binary64, at the parameters of the components: the ratio is
    positive and at most [1e10] at points of the size [1e149], whose terms
    are within the two bounds, and it is [0] at [G = 1e200], where the
    square of [G*X] is infinite. *)
Example calculateK_bounds_binary64 :
  let p := initial_params (num := PrimFloat.float) in
  forallb (fun gb : PrimFloat.float * PrimFloat.float =>
             lt (lit 0 1) (Reduced.calculateK p (fst gb) (snd gb))
             && le (Reduced.calculateK p (fst gb) (snd gb))
                   (lit 10000000000 1))
    [(big_lit (10 ^ 149), big_lit (10 ^ 149));
     (big_lit (10 ^ 149), lit 1 10);
     (lit 0 1, neg (big_lit (10 ^ 149)));
     (lit 1 10, lit 75 1000);
     (lit 0 1, div (lit 1 1) (add (XL p) (Xd_prime p)))] = true
  /\ Reduced.calculateK p (big_lit (10 ^ 200)) (lit 1 10) = lit 0 1.
Proof. vm_compute. split; reflexivity. Qed.

(** X6: every point that is not degenerate lies on the contour of its own
    ratio: for [XL + Xd_prime > 0] and a denominator of at least [1e-10],
    the distance of [(g, bc)] to the centre of
    [calculateKCircle(calculateK(g, bc))] is the radius of that circle. *)
Theorem point_on_own_contour (p : Params R) (g bc : R) :
  0 < XL p + Xd_prime p ->
  1e-10 <= ratio_denom p g bc ->
  let c := Reduced.calculateKCircle p (Reduced.calculateK p g bc) in
  distance_to_center c g bc = R_ c
  /\ Direct.calculateKCircle p (Direct.calculateK p g bc) = c.
Proof.
  intros HX Hnd c. split; [|reflexivity].
  unfold c. rewrite calculateK_unfold.
  replace (Rltb (ratio_denom p g bc) (1 / 10000000000)) with false
    by (symmetry; apply Rltb_false; lra).
  pose proof (ratio_denom_as_distance p g bc HX) as Hd.
  change (distance_to_center
            (Reduced.calculateKCircle p (1 / ratio_denom p g bc)) g bc)
    with (distance_to_center (Reduced.calculateKCircle p 1) g bc).
  cbn [R_ Reduced.calculateKCircle]; js_real.
  rewrite Hd at 1.
  assert (Hpos : 0 < distance_to_center (Reduced.calculateKCircle p 1) g bc).
  { rewrite Hd in Hnd.
    apply Rnot_le_lt; intro Hle.
    assert (Hnn : 0 <= distance_to_center (Reduced.calculateKCircle p 1) g bc)
      by (unfold distance_to_center; apply sqrt_pos).
    assert (Hz : distance_to_center (Reduced.calculateKCircle p 1) g bc = 0)
      by lra.
    rewrite Hz in Hnd. lra. }
  field. lra.
Qed.

Lemma point_on_own_contour_witness :
  let p := initial_params (num := R) in
  let c := Reduced.calculateKCircle p (Reduced.calculateK p 0 0) in
  distance_to_center c 0 0 = R_ c.
Proof.
  intros p c.
  assert (HX : 0 < XL p + Xd_prime p) by (cbn; lra).
  assert (Hnd : 1e-10 <= ratio_denom p 0 0).
  { unfold ratio_denom; cbv zeta.
    replace ((1 - 0 * (XL p + Xd_prime p)) ^ 2 + (0 * (XL p + Xd_prime p)) ^ 2)
      with 1 by ring.
    rewrite sqrt_1. lra. }
  exact (proj1 (point_on_own_contour p 0 0 HX Hnd)).
Defined.

(** Inside the closed disc of the boundary, the distance to the top of the
    circle is below the height of the top. *)
Lemma inside_disc_near_top (g bc b r : R) :
  0 < r -> r < b ->
  g * g + (bc - b) * (bc - b) <= r * r ->
  g * g + (bc - (b + r)) * (bc - (b + r)) < (b + r) * (b + r).
Proof.
  intros Hr Hb Hin.
  pose proof (Rle_0_sqr g) as Hg0. unfold Rsqr in Hg0.
  assert (Hbc : (bc - b) * (bc - b) <= r * r) by lra.
  destruct (sq_le_bound (bc - b) r (Rlt_le _ _ Hr) Hbc) as [Hlo Hhi].
  assert (E : g * g + (bc - (b + r)) * (bc - (b + r))
              = g * g + (bc - b) * (bc - b) - 2 * r * (bc - b) + r * r)
    by ring.
  rewrite E.
  assert (- 2 * r * (bc - b) <= 2 * r * r) by nra.
  assert (4 * r * r < (b + r) * (b + r)) by nra.
  lra.
Qed.

(** For an unstable point the denominator of the ratio is below [1]. *)
Lemma unstable_ratio_denom_lt_1 (p : Params R) (g bc : R) :
  valid_reactances p ->
  Reduced.checkStability (Reduced.stabilityCircle p) g bc = false ->
  ratio_denom p g bc < 1.
Proof.
  intros Hv Hun.
  destruct (boundary_positive p Hv) as [HR Hlt].
  destruct (boundary_extent p Hv) as [_ Hhi].
  assert (HX : 0 < XL p + Xd_prime p)
    by (destruct Hv as (Hd & Hp & HL); lra).
  apply checkStability_false_iff in Hun; [|lra].
  pose proof (inside_disc_near_top g bc _ _ HR Hlt Hun) as Hnear.
  rewrite Hhi in Hnear.
  rewrite (ratio_denom_as_distance p g bc HX).
  unfold distance_to_center; cbn [G_center Bc_center Reduced.calculateKCircle];
    js_real.
  set (X := XL p + Xd_prime p) in *.
  replace ((g - 0) ^ 2 + (bc - 1 / X) ^ 2)
    with (g * g + (bc - 1 / X) * (bc - 1 / X)) by ring.
  assert (Htop : 0 < 1 / X) by (apply Rdiv_lt_0_compat; lra).
  assert (Hs : sqrt (g * g + (bc - 1 / X) * (bc - 1 / X)) < 1 / X).
  { apply Rlt_le_trans with (sqrt (1 / X * (1 / X))).
    - apply sqrt_lt_1_alt. split; [|exact Hnear].
      apply Rplus_le_le_0_compat; apply Rle_0_sqr.
    - rewrite sqrt_square by lra. lra. }
  apply Rmult_lt_reg_r with (/ X); [apply Rinv_0_lt_compat; lra|].
  replace (X * sqrt (g * g + (bc - 1 / X) * (bc - 1 / X)) * / X)
    with (sqrt (g * g + (bc - 1 / X) * (bc - 1 / X))) by (field; lra).
  lra.
Qed.

(** The ratio is above [1] where the denominator is below [1]. *)
Lemma calculateK_gt_1 (p : Params R) (g bc : R) :
  ratio_denom p g bc < 1 -> 1 < Reduced.calculateK p g bc.
Proof.
  intro Hden. rewrite calculateK_unfold.
  destruct (Rltb (ratio_denom p g bc) (1 / 10000000000)) eqn:E; [lra|].
  apply Rltb_false in E.
  apply Rmult_lt_reg_r with (ratio_denom p g bc); [lra|].
  replace (1 / ratio_denom p g bc * ratio_denom p g bc) with 1
    by (field; lra).
  lra.
Qed.

(** X7: an unstable point is a point of overvoltage: for valid reactances,
    when the classifier answers unstable, [calculateK] is above [1]. *)
Theorem unstable_is_overvoltage (p : Params R) (g bc : R) :
  valid_reactances p ->
  Reduced.isStable p g bc = false ->
  1 < Reduced.kValue p g bc.
Proof.
  intros Hv Hun.
  unfold Reduced.isStable in Hun. unfold Reduced.kValue.
  apply calculateK_gt_1.
  exact (unstable_ratio_denom_lt_1 p g bc Hv Hun).
Qed.

Lemma unstable_is_overvoltage_witness :
  let p := initial_params (num := R) in
  Reduced.isStable p 0 (17 / 100) = false
  /\ 1 < Reduced.kValue p 0 (17 / 100).
Proof.
  intro p.
  assert (Hun : Reduced.isStable p 0 (17 / 100) = false).
  { unfold Reduced.isStable, p. rewrite stabilityCircle_initial.
    apply checkStability_false_iff; cbn [R_ Bc_center]; lra. }
  split; [exact Hun|].
  exact (unstable_is_overvoltage p 0 (17 / 100)
           (proj1 initial_params_valid) Hun).
Defined.

Lemma ratio_denom_sqrt_eig_denom (p : Params R) (g bc : R) :
  ratio_denom p g bc = sqrt (eig_denom p g bc).
Proof. reflexivity. Qed.

(** X8: the ratio grows towards the centre of the contours: for
    [XL + Xd_prime > 0] and two points that are not degenerate, the one
    nearer to [(0, 1/X)] has the larger [calculateK], and conversely. *)
Theorem calculateK_decreases_with_distance (p : Params R) (g1 bc1 g2 bc2 : R) :
  0 < XL p + Xd_prime p ->
  1e-10 <= ratio_denom p g1 bc1 ->
  1e-10 <= ratio_denom p g2 bc2 ->
  let c := Reduced.calculateKCircle p 1 in
  (Reduced.calculateK p g1 bc1 < Reduced.calculateK p g2 bc2
   <-> distance_to_center c g2 bc2 < distance_to_center c g1 bc1).
Proof.
  intros HX H1 H2 c.
  rewrite !calculateK_unfold.
  replace (Rltb (ratio_denom p g1 bc1) (1 / 10000000000)) with false
    by (symmetry; apply Rltb_false; lra).
  replace (Rltb (ratio_denom p g2 bc2) (1 / 10000000000)) with false
    by (symmetry; apply Rltb_false; lra).
  pose proof (ratio_denom_as_distance p g1 bc1 HX) as E1.
  pose proof (ratio_denom_as_distance p g2 bc2 HX) as E2.
  fold c in E1, E2.
  set (d1 := ratio_denom p g1 bc1) in *.
  set (d2 := ratio_denom p g2 bc2) in *.
  assert (Hd1 : 0 < d1) by lra. assert (Hd2 : 0 < d2) by lra.
  assert (Hiff : 1 / d1 < 1 / d2 <-> d2 < d1).
  { unfold Rdiv; rewrite !Rmult_1_l. split; intro Hlt.
    - apply Rnot_le_lt; intro Hle.
      assert (/ d2 <= / d1) by (apply Rinv_le_contravar; lra). lra.
    - apply Rinv_lt_contravar; [apply Rmult_lt_0_compat|]; lra. }
  rewrite Hiff, E1, E2. split; intro Hlt; nra.
Qed.

Lemma calculateK_decreases_with_distance_witness :
  let p := initial_params (num := R) in
  Reduced.calculateK p 0 (1 / 10) < Reduced.calculateK p 0 (15 / 100)
  <-> distance_to_center (Reduced.calculateKCircle p 1) 0 (15 / 100)
      < distance_to_center (Reduced.calculateKCircle p 1) 0 (1 / 10).
Proof.
  intro p.
  assert (HX : 0 < XL p + Xd_prime p) by (cbn; lra).
  assert (Hd : forall bc, 0 <= bc <= 15 / 100 -> 1e-10 <= ratio_denom p 0 bc).
  { intros bc Hbc. rewrite ratio_denom_sqrt_eig_denom.
    apply Rle_trans with (sqrt (1e-10 * 1e-10));
      [rewrite sqrt_square by lra; lra|].
    apply sqrt_le_1_alt. unfold eig_denom, Xtot; cbn. nra. }
  apply (calculateK_decreases_with_distance p 0 (1 / 10) 0 (15 / 100) HX);
    apply Hd; lra.
Defined.

(** ** The neighbourhood of the centre of the contours *)

Lemma eig_denom_nonneg (p : Params R) (g bc : R) : 0 <= eig_denom p g bc.
Proof.
  unfold eig_denom. apply Rplus_le_le_0_compat; apply pow2_ge_0.
Qed.

(** Where the solver answers the degenerate result, the ratio is at least
    the sentinel. *)
Lemma calculateK_large_when_degenerate (p : Params R) (g bc : R) :
  eig_denom p g bc < 1e-10 -> 999 <= Reduced.calculateK p g bc.
Proof.
  intro Hd. rewrite calculateK_unfold.
  destruct (Rltb (ratio_denom p g bc) (1 / 10000000000)) eqn:E; [lra|].
  apply Rltb_false in E.
  assert (Hs : ratio_denom p g bc < 0.00001).
  { rewrite ratio_denom_sqrt_eig_denom.
    apply Rlt_le_trans with (sqrt (0.00001 * 0.00001)).
    - apply sqrt_lt_1_alt. split; [apply eig_denom_nonneg | lra].
    - rewrite sqrt_square by lra. lra. }
  assert (Hpos : 0 < ratio_denom p g bc) by lra.
  apply Rmult_le_reg_r with (ratio_denom p g bc); [exact Hpos|].
  replace (1 / ratio_denom p g bc * ratio_denom p g bc) with 1
    by (field; lra).
  nra.
Qed.

(** X10: just above the centre of the contours the classifier and the
    eigenvalue solver disagree: for valid reactances, a point [(0, bc)]
    with [bc > 1/X] and [(1 - bc*X)^2 < 1e-10] is classified stable, while
    [calculateEigenvalues] answers the degenerate result with
    [stable = false]; the time response of such a point carries the flag
    [stable = true] and, after the disturbance, the voltage [2.5]. *)
Theorem stable_flag_disagrees_above_centre (p : Params R) (bc t : R) :
  valid_reactances p ->
  1 / (XL p + Xd_prime p) < bc ->
  eig_denom p 0 bc < 1e-10 ->
  0.5 < t ->
  Reduced.isStable p 0 bc = true
  /\ Eig.stable (Reduced.eigenvalues p 0 bc) = false
  /\ Sample.stable (Reduced.sample p 0 bc t) = true
  /\ Sample.VL (Reduced.sample p 0 bc t) = 2.5.
Proof.
  intros Hv Hbc Hd Ht.
  destruct (boundary_positive p Hv) as [HR _].
  destruct (boundary_extent p Hv) as [_ Hhi].
  assert (Hst : Reduced.checkStability (Reduced.stabilityCircle p) 0 bc = true).
  { destruct (Reduced.checkStability (Reduced.stabilityCircle p) 0 bc) eqn:E;
      [reflexivity|].
    apply checkStability_false_iff in E; [|lra].
    rewrite <- Hhi in Hbc.
    destruct (sq_le_bound (bc - Bc_center (Reduced.stabilityCircle p))
                (R_ (Reduced.stabilityCircle p)) (Rlt_le _ _ HR)) as [_ Hup];
      [nra | lra]. }
  assert (Heig : Reduced.calculateEigenvalues p 0 bc = Eig.make 0 0 false None).
  { rewrite calculateEigenvalues_unfold. unfold eigen_spec.
    destruct (Rlt_dec (eig_denom p 0 bc) 1e-10) as [_|Hn];
      [reflexivity | contradiction]. }
  pose proof (calculateK_large_when_degenerate p 0 bc Hd) as Hk.
  split; [exact Hst|].
  split; [unfold Reduced.eigenvalues; rewrite Heig; reflexivity|].
  unfold Reduced.sample; cbv zeta. rewrite Heig, Hst.
  cbn [Sample.stable Sample.VL Eig.real Eig.imag Eig.oscillatory]; js_real.
  split; [reflexivity|].
  replace (Rltb (5 / 10) t) with true by (symmetry; apply Rltb_true; lra).
  rewrite Rmult_0_l, exp_0.
  set (k := Reduced.calculateK p 0 bc) in *.
  rewrite Rmax_left by lra. rewrite Rmin_right by lra. lra.
Qed.

Lemma stable_flag_disagrees_above_centre_witness :
  let p := initial_params (num := R) in
  let bc := 1 / 5.3 + 0.0000001 in
  Reduced.isStable p 0 bc = true
  /\ Eig.stable (Reduced.eigenvalues p 0 bc) = false
  /\ Sample.VL (Reduced.sample p 0 bc 1) = 2.5.
Proof.
  intros p bc.
  assert (H1 : 1 / (XL p + Xd_prime p) < bc) by (unfold bc; cbn; lra).
  assert (H2 : eig_denom p 0 bc < 1e-10)
    by (unfold eig_denom, Xtot, bc; cbn; lra).
  assert (H3 : 0.5 < 1) by lra.
  pose proof (stable_flag_disagrees_above_centre p bc 1
                (proj1 initial_params_valid) H1 H2 H3) as H.
  exact (conj (proj1 H) (conj (proj1 (proj2 H)) (proj2 (proj2 (proj2 H))))).
Defined.

(** ** The eigenvalues solve the characteristic equation *)



(** ** The switches and the reduced point *)

(** A point below the bottom of the boundary circle is stable. *)
Lemma below_circle_is_stable (p : Params R) (g bc : R) :
  valid_reactances p ->
  bc < 1 / (XL p + Xd p) ->
  Reduced.checkStability (Reduced.stabilityCircle p) g bc = true.
Proof.
  intros Hv Hbc.
  destruct (boundary_positive p Hv) as [HR _].
  destruct (boundary_extent p Hv) as [Hlo _].
  destruct (Reduced.checkStability (Reduced.stabilityCircle p) g bc) eqn:E;
    [reflexivity|].
  apply checkStability_false_iff in E; [|lra].
  rewrite <- Hlo in Hbc.
  pose proof (Rle_0_sqr g) as Hg0. unfold Rsqr in Hg0.
  destruct (sq_le_bound (bc - Bc_center (Reduced.stabilityCircle p))
              (R_ (Reduced.stabilityCircle p)) (Rlt_le _ _ HR)) as [Hlow _];
    [lra | lra].
Qed.

(** The sums of the reduction, by cases on the switches. *)
Lemma reduce_G_Bc (cfg : SystemConfig R) (conn : Connected) :
  G (Reduced.reduce cfg conn)
  = ((if load1 conn then P_load1 cfg else 0)
     + (if load2 conn then P_load2 cfg else 0)
     + (if load3 conn then P_load3 cfg else 0)) / (V cfg * V cfg)
  /\ Bc (Reduced.reduce cfg conn)
     = ((if cap1 conn then Qc_cap1 cfg else 0)
        + (if cap2 conn then Qc_cap2 cfg else 0)
        + (if cable conn then Qc_cable cfg else 0)) / (V cfg * V cfg).
Proof.
  unfold Reduced.reduce; cbn [G Bc]; js_real.
  destruct conn as [[] [] [] [] [] []]; cbn;
    split; unfold Rdiv; f_equal; ring.
Qed.

(** X12: the two emergency buttons move the point as they are labelled:
    for a valid configuration, shedding the loads 2 and 3 does not raise
    [G] and leaves [Bc] as it is, and dropping the capacitors 1 and 2 does
    not raise [Bc] and leaves [G] as it is. *)
Theorem emergency_buttons_move_point (cfg : SystemConfig R) (conn : Connected) :
  valid_systemConfig cfg ->
  (G (Reduced.reduce cfg (Reduced.shed_loads conn))
   <= G (Reduced.reduce cfg conn)
   /\ Bc (Reduced.reduce cfg (Reduced.shed_loads conn))
      = Bc (Reduced.reduce cfg conn))
  /\ (Bc (Reduced.reduce cfg (Reduced.drop_capacitors conn))
      <= Bc (Reduced.reduce cfg conn)
      /\ G (Reduced.reduce cfg (Reduced.drop_capacitors conn))
         = G (Reduced.reduce cfg conn)).
Proof.
  intros (H1 & H2 & H3 & H4 & H5 & H6 & HV).
  assert (HV2 : 0 < / (V cfg * V cfg)) by (apply Rinv_0_lt_compat; nra).
  destruct (reduce_G_Bc cfg conn) as [EG EB].
  destruct (reduce_G_Bc cfg (Reduced.shed_loads conn)) as [EG1 EB1].
  destruct (reduce_G_Bc cfg (Reduced.drop_capacitors conn)) as [EG2 EB2].
  rewrite EG, EB, EG1, EB1, EG2, EB2.
  unfold Reduced.shed_loads, Reduced.drop_capacitors, Reduced.set_load2,
    Reduced.set_load3, Reduced.set_cap1, Reduced.set_cap2; cbn.
  unfold Rdiv.
  split; split; try reflexivity;
    apply Rmult_le_compat_r; try lra;
    destruct conn as [[] [] [] [] [] []]; cbn; lra.
Qed.

Lemma emergency_buttons_move_point_witness :
  G (Reduced.reduce (initial_systemConfig (num := R))
       (Reduced.shed_loads all_connected))
  <= G (Reduced.reduce (initial_systemConfig (num := R)) all_connected).
Proof.
  exact (proj1 (proj1 (emergency_buttons_move_point
                         initial_systemConfig all_connected
                         initial_systemConfig_valid))).
Defined.

(** X13: when the three reactive sources together stay below
    [V^2 / (XL + Xd)], no state of the switches is classified unstable:
    for valid reactances and a valid configuration the reduced point is
    stable for every [connected].  The initial configuration is of this
    kind. *)
Theorem small_capacitance_always_stable
    (p : Params R) (cfg : SystemConfig R) (conn : Connected) :
  valid_reactances p ->
  valid_systemConfig cfg ->
  Qc_cap1 cfg + Qc_cap2 cfg + Qc_cable cfg
    < V cfg * V cfg / (XL p + Xd p) ->
  Reduced.isStable p (G (Reduced.reduce cfg conn))
                     (Bc (Reduced.reduce cfg conn)) = true.
Proof.
  intros Hv (H1 & H2 & H3 & H4 & H5 & H6 & HV) Hsmall.
  assert (HV2 : 0 < V cfg * V cfg) by nra.
  assert (HX2 : 0 < XL p + Xd p) by (destruct Hv as (Hd & Hp & HL); lra).
  unfold Reduced.isStable. apply below_circle_is_stable; [exact Hv|].
  destruct (reduce_G_Bc cfg conn) as [_ EB]. rewrite EB.
  apply Rmult_lt_reg_r with (V cfg * V cfg); [exact HV2|].
  match goal with
  | |- ?q / _ * _ < _ => replace (q / (V cfg * V cfg) * (V cfg * V cfg))
      with q by (field; lra)
  end.
  replace (1 / (XL p + Xd p) * (V cfg * V cfg))
    with (V cfg * V cfg / (XL p + Xd p)) by (field; lra).
  destruct conn as [l1 l2 l3 [] [] []]; cbn; lra.
Qed.

(** The state after the button labelled as destabilising, from the initial
    state. *)
Lemma small_capacitance_always_stable_witness :
  let conn := Reduced.shed_loads all_connected in
  Reduced.isStable (initial_params (num := R))
    (G (Reduced.reduce initial_systemConfig conn))
    (Bc (Reduced.reduce initial_systemConfig conn)) = true.
Proof.
  intro conn.
  apply small_capacitance_always_stable.
  - exact (proj1 initial_params_valid).
  - exact initial_systemConfig_valid.
  - cbn. lra.
Defined.

(** ** The trajectory on binary64 *)

(** X14: on binary64 every run ends with the same [401] times: for any
    parameters, any point and any [Math.exp] and [Math.cos],
    [runSimulation] answers the body of the loop at the times that
    [t += 0.02] accumulates from [0], with their rounding; the times
    increase, none is above [8], and the last one is below [8] (it is
    [7.99999999999998]).  More fuel gives the same list. *)
Theorem binary64_runSimulation_samples
    (M : JsMath PrimFloat.float) (p : Params PrimFloat.float)
    (G Bc : PrimFloat.float) (fuel : nat) :
  (simulation_fuel <= fuel)%nat ->
  Reduced.runSimulation p G Bc fuel
  = Some (map (Reduced.sample p G Bc) binary64_times)
  /\ length binary64_times = 401%nat
  /\ nth_error binary64_times 0 = Some (lit 0 1)
  /\ forallb (fun t => le t (lit 8 1)) binary64_times = true
  /\ lt (nth 400 binary64_times (lit 0 1)) (lit 8 1) = true
  /\ (forall i, (i < 400)%nat ->
        lt (nth i binary64_times (lit 0 1))
           (nth (S i) binary64_times (lit 0 1)) = true).
Proof.
  intro Hfuel.
  split; [exact (runSimulation_loop_times p G Bc simulation_fuel fuel _
                   binary64_times_run Hfuel)|].
  split; [exact binary64_times_length|].
  split; [vm_compute; reflexivity|].
  split; [vm_compute; reflexivity|].
  split; [vm_compute; reflexivity|].
  assert (Hall : forallb (fun i => lt (nth i binary64_times (lit 0 1))
                                      (nth (S i) binary64_times (lit 0 1)))
                   (seq 0 400) = true) by (vm_compute; reflexivity).
  intros i Hi.
  rewrite forallb_forall in Hall. apply Hall.
  apply in_seq. split; [apply Nat.le_0_l | exact Hi].
Qed.

(** A run at the initial point, for a [Math.exp] and a [Math.cos] that
    stand for any. *)
Lemma binary64_runSimulation_samples_witness :
  let M := {| Math_exp := fun x : PrimFloat.float => x;
              Math_cos := fun x : PrimFloat.float => x |} in
  Reduced.runSimulation (H0 := M) initial_params (lit 1 10) (lit 75 1000)
    simulation_fuel
  = Some (map (Reduced.sample (H0 := M) initial_params (lit 1 10)
                 (lit 75 1000)) binary64_times).
Proof.
  intro M.
  exact (proj1 (binary64_runSimulation_samples M initial_params
                  (lit 1 10) (lit 75 1000) simulation_fuel (le_n _))).
Defined.

(** The body of the loop at a time that is not above [0.5]. *)
Lemma binary64_sample_nominal
    (M : JsMath PrimFloat.float) (p : Params PrimFloat.float)
    (G Bc t : PrimFloat.float) :
  lt (lit 5 10) t = false ->
  Reduced.sample p G Bc t
  = Sample.make t (lit 1 1) (Reduced.isStable p G Bc).
Proof.
  intro Ht. unfold Reduced.sample, Reduced.isStable; cbv zeta.
  rewrite Ht. f_equal.
Qed.

(** X16: on binary64 a run holds exactly [25] samples up to the
    disturbance, not [26]: for any parameters, point, [Math.exp] and
    [Math.cos], the samples of the indices [0..24] are
    [{t, VL: 1, stable: checkStability(G, Bc)}], and every sample from the
    index [25] on has [t > 0.5], the time of index [25] being
    [0.5000000000000001]; all samples carry the same flag. *)
Theorem binary64_trajectory_before_disturbance
    (M : JsMath PrimFloat.float) (p : Params PrimFloat.float)
    (G Bc : PrimFloat.float) (fuel : nat) :
  (simulation_fuel <= fuel)%nat ->
  exists data,
    Reduced.runSimulation p G Bc fuel = Some data
    /\ length data = 401%nat
    /\ firstn 25 data
       = map (fun t => Sample.make t (lit 1 1) (Reduced.isStable p G Bc))
           (firstn 25 binary64_times)
    /\ Forall (fun d => lt (lit 5 10) (Sample.t_ d) = true) (skipn 25 data)
    /\ Forall (fun d => Sample.stable d = Reduced.isStable p G Bc) data.
Proof.
  intro Hfuel.
  destruct binary64_times_disturbance as [Hpre Hpost].
  rewrite forallb_forall in Hpre, Hpost.
  exists (map (Reduced.sample p G Bc) binary64_times).
  split; [exact (runSimulation_loop_times p G Bc simulation_fuel fuel _
                   binary64_times_run Hfuel)|].
  split; [rewrite length_map; exact binary64_times_length|].
  split; [|split].
  - rewrite firstn_map. apply map_ext_in. intros t Hin.
    apply binary64_sample_nominal.
    apply Hpre in Hin. now apply negb_true_iff in Hin.
  - rewrite skipn_map. apply Forall_forall. intros d Hin.
    apply in_map_iff in Hin. destruct Hin as (t & <- & Hin).
    exact (Hpost t Hin).
  - apply Forall_forall. intros d Hin.
    apply in_map_iff in Hin. destruct Hin as (t & <- & _).
    reflexivity.
Qed.

Lemma binary64_trajectory_before_disturbance_witness :
  let M := {| Math_exp := fun x : PrimFloat.float => x;
              Math_cos := fun x : PrimFloat.float => x |} in
  exists data,
    Reduced.runSimulation (H0 := M) initial_params (lit 1 10) (lit 75 1000)
      simulation_fuel = Some data
    /\ length data = 401%nat.
Proof.
  intro M.
  destruct (binary64_trajectory_before_disturbance M initial_params
              (lit 1 10) (lit 75 1000) simulation_fuel (le_n _))
    as (data & Hrun & Hlen & _).
  exists data. split; [exact Hrun | exact Hlen].
Defined.

(** ** The path of the time response *)

(** X15: the path maps the range of the times, [[0, 8]], and the range of
    the clamp, [[0.4, 2.5]], into the rectangle of the graph: a sample
    with [t] and [VL] in these ranges has [path_x] between [tgM.left] and
    [tgW - tgM.right] and [path_y] between [tgM.top] and
    [tgH - tgM.bottom]. *)
Theorem path_inside_time_graph (d : Sample.t R) :
  0 <= Sample.t_ d <= 8 ->
  0.4 <= Sample.VL d <= 2.5 ->
  Margin.left Reduced.tgM <= Reduced.path_x d
    <= Reduced.tgW - Margin.right Reduced.tgM
  /\ Margin.top Reduced.tgM <= Reduced.path_y d
     <= Reduced.tgH - Margin.bottom Reduced.tgM.
Proof.
  intros Ht Hv. destruct d as [t v st]. cbn [Sample.t_ Sample.VL] in *.
  plot_real. cbn [Sample.t_ Sample.VL]. repeat split; lra.
Qed.

Lemma path_inside_time_graph_witness :
  let d := Sample.make (num := R) 8 2.5 true in
  Margin.top Reduced.tgM <= Reduced.path_y d
    <= Reduced.tgH - Margin.bottom Reduced.tgM.
Proof.
  intro d.
  assert (Ht : 0 <= Sample.t_ d <= 8) by (cbn; lra).
  assert (Hv : 0.4 <= Sample.VL d <= 2.5) by (cbn; lra).
  exact (proj2 (path_inside_time_graph d Ht Hv)).
Defined.

(** The corners of the two ranges on binary64: they map onto the corners
    of the rectangle. *)
Example path_corners_binary64 :
  Reduced.path_x (Sample.make (lit 0 1) (lit 4 10) true)
  = Margin.left (Reduced.tgM (num := PrimFloat.float))
  /\ Reduced.path_x (Sample.make (lit 8 1) (lit 4 10) true)
     = sub Reduced.tgW (Margin.right (Reduced.tgM (num := PrimFloat.float)))
  /\ Reduced.path_y (Sample.make (lit 0 1) (lit 25 10) true)
     = Margin.top (Reduced.tgM (num := PrimFloat.float))
  /\ Reduced.path_y (Sample.make (lit 0 1) (lit 4 10) true)
     = sub Reduced.tgH (Margin.bottom (Reduced.tgM (num := PrimFloat.float))).
Proof. vm_compute. repeat split. Qed.

(** ** The shape of the response after the disturbance *)

Lemma clamp_monotone (x y : R) : x <= y -> clamp x <= clamp y.
Proof.
  intro Hle. unfold clamp.
  apply Rle_min_compat_r, Rle_max_compat_r. exact Hle.
Qed.

Lemma exp_monotone (x y : R) : x <= y -> exp x <= exp y.
Proof.
  intros [Hlt|Heq].
  - left. now apply exp_increasing.
  - subst. apply Rle_refl.
Qed.

(** The voltage of a sample after the disturbance, in the stable branch. *)
Lemma sample_after_stable (p : Params R) (G Bc t : R) :
  0.5 < t ->
  Reduced.checkStability (Reduced.stabilityCircle p) G Bc = true ->
  Sample.VL (Reduced.sample p G Bc t)
  = clamp (Reduced.calculateK p G Bc
           * (1 + 0.2
                  * exp (Eig.real (Reduced.calculateEigenvalues p G Bc)
                         * (t - 0.5))
                  * match Eig.oscillatory
                            (Reduced.calculateEigenvalues p G Bc) with
                    | Some true =>
                        cos (Eig.imag (Reduced.calculateEigenvalues p G Bc)
                             * (t - 0.5))
                    | _ => 1
                    end)).
Proof.
  intros Ht Hst.
  unfold Reduced.sample; cbv zeta; cbn [Sample.VL]. rewrite Hst. js_real.
  replace (Rltb (5 / 10) t) with true by (symmetry; apply Rltb_true; lra).
  unfold clamp.
  replace (5 / 10) with 0.5 by lra. replace (2 / 10) with 0.2 by lra.
  replace (4 / 10) with 0.4 by lra. replace (25 / 10) with 2.5 by lra.
  reflexivity.
Qed.

(** The voltage of a sample after the disturbance, in the unstable
    branch. *)
Lemma sample_after_unstable (p : Params R) (G Bc t : R) :
  0.5 < t ->
  Reduced.checkStability (Reduced.stabilityCircle p) G Bc = false ->
  Sample.VL (Reduced.sample p G Bc t)
  = clamp (Reduced.calculateK p G Bc
           * Rmin (exp (Rabs (Eig.real (Reduced.calculateEigenvalues p G Bc))
                        * (t - 0.5) * 0.5)) 4).
Proof.
  intros Ht Hst.
  unfold Reduced.sample; cbv zeta; cbn [Sample.VL]. rewrite Hst. js_real.
  replace (Rltb (5 / 10) t) with true by (symmetry; apply Rltb_true; lra).
  unfold clamp.
  replace (5 / 10) with 0.5 by lra.
  replace (4 / 10) with 0.4 by lra. replace (25 / 10) with 2.5 by lra.
  reflexivity.
Qed.

(** A stable flag of the solver means a negative exposed real part. *)
Lemma stable_real_negative (p : Params R) (g bc : R) :
  Eig.stable (Reduced.calculateEigenvalues p g bc) = true ->
  Eig.real (Reduced.calculateEigenvalues p g bc) < 0.
Proof.
  rewrite calculateEigenvalues_unfold. unfold eigen_spec.
  destruct (Rlt_dec (eig_denom p g bc) 1e-10) as [_|_];
    [cbn; discriminate|].
  destruct (Rle_dec 0 (disc p g bc)) as [_|_];
    cbn [Eig.stable Eig.real]; intro Hst.
  - apply andb_true_iff in Hst. destruct Hst as [H1 H2].
    apply Rltb_true in H1, H2. now apply Rmax_lub_lt.
  - now apply Rltb_true in Hst.
Qed.

(** X17: a stable point settles within a fifth of its ratio: for a point
    that [checkStability] classifies as stable, whose eigenvalue result
    has a negative [real] and whose two terms [G*X] and [1 - Bc*X] are at
    most [1e150] in size (no square leaves binary64), every sample after
    the disturbance has its voltage between the clamp of [0.8 k] and the
    clamp of [1.2 k], [k] being [calculateK] of the point. *)
Theorem stable_response_band (p : Params R) (g bc t : R) :
  Reduced.isStable p g bc = true ->
  Eig.real (Reduced.eigenvalues p g bc) < 0 ->
  Rabs (g * (XL p + Xd_prime p)) <= 10 ^ 150 ->
  Rabs (1 - bc * (XL p + Xd_prime p)) <= 10 ^ 150 ->
  0.5 < t ->
  clamp (0.8 * Reduced.kValue p g bc)
  <= Sample.VL (Reduced.sample p g bc t)
  <= clamp (1.2 * Reduced.kValue p g bc).
Proof.
  intros Hst Hre _ _ Ht.
  unfold Reduced.isStable in Hst.
  unfold Reduced.kValue. unfold Reduced.eigenvalues in Hre.
  rewrite (sample_after_stable p g bc t Ht Hst).
  destruct (calculateK_bounds_aux p g bc) as [Hk _].
  set (k := Reduced.calculateK p g bc) in *.
  set (re := Eig.real (Reduced.calculateEigenvalues p g bc)) in *.
  assert (Hdecay : 0 < exp (re * (t - 0.5)) < 1).
  { split; [apply exp_pos|].
    rewrite <- exp_0. apply exp_increasing. nra. }
  set (decay := exp (re * (t - 0.5))) in *.
  assert (Hosc : -1 <= match Eig.oscillatory
                               (Reduced.calculateEigenvalues p g bc) with
                       | Some true =>
                           cos (Eig.imag (Reduced.calculateEigenvalues p g bc)
                                * (t - 0.5))
                       | _ => 1
                       end <= 1).
  { destruct (Eig.oscillatory (Reduced.calculateEigenvalues p g bc))
      as [[|]|]; try lra.
    apply COS_bound. }
  match type of Hosc with _ <= ?o <= _ => set (osc := o) in * end.
  assert (Hprod : -1 <= decay * osc <= 1) by nra.
  split; apply clamp_monotone; nra.
Qed.

Lemma stable_response_band_witness :
  let p := initial_params (num := R) in
  clamp (0.8 * Reduced.kValue p (1 / 10) (75 / 1000))
  <= Sample.VL (Reduced.sample p (1 / 10) (75 / 1000) 1)
  <= clamp (1.2 * Reduced.kValue p (1 / 10) (75 / 1000)).
Proof.
  intro p.
  assert (Hd : 1e-10 <= eig_denom p (1 / 10) (75 / 1000))
    by (unfold p; rewrite eig_denom_initial_point; lra).
  assert (Hst : Reduced.isStable p (1 / 10) (75 / 1000) = true).
  { unfold Reduced.isStable.
    apply below_circle_is_stable; [exact (proj1 initial_params_valid)|].
    cbn. lra. }
  assert (Hre : Eig.real (Reduced.eigenvalues p (1 / 10) (75 / 1000)) < 0).
  { unfold Reduced.eigenvalues. apply stable_real_negative.
    rewrite <- (stable_flags_agree p _ _ initial_params_valid Hd).
    exact Hst. }
  assert (H1 : Rabs (1 / 10 * (XL p + Xd_prime p)) <= 10 ^ 150).
  { apply Rle_trans with 1; [|apply pow_R1_Rle; lra].
    apply Rabs_le. cbn. lra. }
  assert (H2 : Rabs (1 - 75 / 1000 * (XL p + Xd_prime p)) <= 10 ^ 150).
  { apply Rle_trans with 1; [|apply pow_R1_Rle; lra].
    apply Rabs_le. cbn. lra. }
  assert (Ht : 0.5 < 1) by lra.
  exact (stable_response_band p (1 / 10) (75 / 1000) 1 Hst Hre H1 H2 Ht).
Defined.

(** X18: an unstable point never recovers: for valid reactances and a
    point that [checkStability] classifies as unstable, the voltage of the
    sample does not fall as the time grows, from the nominal [1] before
    the disturbance on. *)
Theorem unstable_response_monotone (p : Params R) (g bc t1 t2 : R) :
  valid_reactances p ->
  Reduced.isStable p g bc = false ->
  t1 <= t2 ->
  Sample.VL (Reduced.sample p g bc t1) <= Sample.VL (Reduced.sample p g bc t2).
Proof.
  intros Hv Hun Hle.
  unfold Reduced.isStable in Hun.
  pose proof (calculateK_gt_1 p g bc (unstable_ratio_denom_lt_1 p g bc Hv Hun))
    as Hk.
  assert (Hone : clamp 1 = 1).
  { unfold clamp. rewrite Rmax_left by lra. apply Rmin_left. lra. }
  assert (Hgrow : forall t, 0.5 < t ->
            1 <= Rmin (exp (Rabs (Eig.real
                                    (Reduced.calculateEigenvalues p g bc))
                             * (t - 0.5) * 0.5)) 4).
  { intros t Ht. apply Rmin_glb; [|lra].
    rewrite <- exp_0. apply exp_monotone.
    pose proof (Rabs_pos (Eig.real (Reduced.calculateEigenvalues p g bc))).
    nra. }
  destruct (Rle_dec t2 0.5) as [H2|H2].
  - rewrite !sample_before_disturbance by lra. lra.
  - apply Rnot_le_lt in H2.
    rewrite (sample_after_unstable p g bc t2 H2 Hun).
    destruct (Rle_dec t1 0.5) as [H1|H1].
    + rewrite (sample_before_disturbance p g bc t1 H1).
      rewrite <- Hone at 1. apply clamp_monotone.
      pose proof (Hgrow t2 H2) as Hg2.
      set (k := Reduced.calculateK p g bc) in *. nra.
    + apply Rnot_le_lt in H1.
      rewrite (sample_after_unstable p g bc t1 H1 Hun).
      apply clamp_monotone.
      apply Rmult_le_compat_l; [lra|].
      apply Rle_min_compat_r, exp_monotone.
      pose proof (Rabs_pos (Eig.real (Reduced.calculateEigenvalues p g bc))).
      nra.
Qed.

Lemma unstable_response_monotone_witness :
  let p := initial_params (num := R) in
  Reduced.isStable p 0 (17 / 100) = false
  /\ Sample.VL (Reduced.sample p 0 (17 / 100) 0)
     <= Sample.VL (Reduced.sample p 0 (17 / 100) 1).
Proof.
  intro p.
  assert (Hun : Reduced.isStable p 0 (17 / 100) = false).
  { unfold Reduced.isStable, p. rewrite stabilityCircle_initial.
    apply checkStability_false_iff; cbn [R_ Bc_center]; lra. }
  assert (Hle : 0 <= 1) by lra.
  split; [exact Hun|].
  exact (unstable_response_monotone p 0 (17 / 100) 0 1
           (proj1 initial_params_valid) Hun Hle).
Defined.

(** ** The drawn boundary *)

(** The plots are affine: [toX] scales by [plotW / 0.21] (first
    component) or [plotW / 0.27] (second), [toY] by the smaller
    [plotH / 0.25] or [plotH / 0.3], and the drawn radius uses the scale
    of [toX]. *)
Lemma Reduced_plot_scales (c : Circle R) (g g0 bc bc0 : R) :
  Reduced.toX g - Reduced.toX g0 = 34000 / 21 * (g - g0)
  /\ Reduced.toY bc - Reduced.toY bc0 = - 1120 * (bc - bc0)
  /\ Reduced.boundary_r c = 34000 / 21 * R_ c.
Proof. plot_real. repeat split; field. Qed.

Lemma Direct_plot_scales (c : Circle R) (g g0 bc bc0 : R) :
  Direct.toX g - Direct.toX g0 = 13000 / 9 * (g - g0)
  /\ Direct.toY bc - Direct.toY bc0 = - (3100 / 3) * (bc - bc0)
  /\ Direct.boundary_r c = 13000 / 9 * R_ c.
Proof. plot_real. repeat split; field. Qed.

(** A disc scaled by [sx] along [G] and by a smaller [sy] along [Bc] lies
    in the disc of radius [sx * r]. *)
Lemma scaled_disc (sx sy u w r : R) :
  sy * sy <= sx * sx ->
  u * u + w * w <= r * r ->
  (sx * u) ^ 2 + (sy * w) ^ 2 <= (sx * r) ^ 2.
Proof.
  intros Hsq Hin.
  pose proof (Rle_0_sqr w) as Hw. unfold Rsqr in Hw.
  pose proof (Rle_0_sqr sx) as Hx. unfold Rsqr in Hx.
  assert (H1 : sy * sy * (w * w) <= sx * sx * (w * w))
    by (apply Rmult_le_compat_r; lra).
  assert (H2 : sx * sx * (u * u + w * w) <= sx * sx * (r * r))
    by (apply Rmult_le_compat_l; lra).
  nra.
Qed.

(** X19: the red disc that is drawn for the boundary covers the unstable
    region: for valid reactances, a point that the classifier answers
    unstable is drawn, by [toX] and [toY], within the radius [r] of the
    drawn circle about its drawn centre, in both components.  The disc is
    wider than the region along [Bc]: a point straight above the circle,
    by up to [1.39] radii from the centre, is stable and drawn inside. *)
Theorem drawn_disc_covers_unstable (p : Params R) (g bc : R) :
  valid_reactances p ->
  let c := Reduced.stabilityCircle p in
  (Reduced.isStable p g bc = false ->
   (Reduced.toX g - Reduced.toX (G_center c)) ^ 2
   + (Reduced.toY bc - Reduced.toY (Bc_center c)) ^ 2
   <= Reduced.boundary_r c ^ 2
   /\ (Direct.toX g - Direct.toX (G_center c)) ^ 2
      + (Direct.toY bc - Direct.toY (Bc_center c)) ^ 2
      <= Direct.boundary_r c ^ 2)
  /\ (R_ c < bc - Bc_center c <= 1.39 * R_ c ->
      Reduced.isStable p 0 bc = true
      /\ (Reduced.toX 0 - Reduced.toX (G_center c)) ^ 2
         + (Reduced.toY bc - Reduced.toY (Bc_center c)) ^ 2
         <= Reduced.boundary_r c ^ 2
      /\ (Direct.toX 0 - Direct.toX (G_center c)) ^ 2
         + (Direct.toY bc - Direct.toY (Bc_center c)) ^ 2
         <= Direct.boundary_r c ^ 2).
Proof.
  intros Hv c.
  destruct (boundary_positive p Hv) as [HR _]. fold c in HR.
  assert (HG : G_center c = 0) by reflexivity.
  split.
  - intro Hun. unfold Reduced.isStable in Hun. fold c in Hun.
    apply checkStability_false_iff in Hun; [|lra].
    destruct (Reduced_plot_scales c g (G_center c) bc (Bc_center c))
      as (EX & EY & ER).
    destruct (Direct_plot_scales c g (G_center c) bc (Bc_center c))
      as (EX' & EY' & ER').
    rewrite EX, EY, ER, EX', EY', ER', HG, Rminus_0_r.
    split; apply scaled_disc; try exact Hun; lra.
  - intros [Hlo Hhi].
    destruct (Reduced_plot_scales c 0 (G_center c) bc (Bc_center c))
      as (EX & EY & ER).
    destruct (Direct_plot_scales c 0 (G_center c) bc (Bc_center c))
      as (EX' & EY' & ER').
    rewrite EX, EY, ER, EX', EY', ER', HG, Rminus_0_r, Rmult_0_r.
    split; [|split].
    + unfold Reduced.isStable. fold c.
      destruct (Reduced.checkStability c 0 bc) eqn:E; [reflexivity|].
      apply checkStability_false_iff in E; [|lra].
      destruct (sq_le_bound (bc - Bc_center c) (R_ c) (Rlt_le _ _ HR))
        as [_ Hup]; [nra | lra].
    + generalize dependent (R_ c). generalize (bc - Bc_center c).
      intros w r _ Hlo Hhi. nra.
    + generalize dependent (R_ c). generalize (bc - Bc_center c).
      intros w r _ Hlo Hhi. nra.
Qed.

Lemma drawn_disc_covers_unstable_witness :
  let p := initial_params (num := R) in
  let c := Reduced.stabilityCircle p in
  let bc := 19 / 100 in
  R_ c < bc - Bc_center c <= 1.39 * R_ c
  /\ Reduced.isStable p 0 bc = true
  /\ (Reduced.toX 0 - Reduced.toX (G_center c)) ^ 2
     + (Reduced.toY bc - Reduced.toY (Bc_center c)) ^ 2
     <= Reduced.boundary_r c ^ 2.
Proof.
  intros p c bc.
  assert (H : R_ c < bc - Bc_center c <= 1.39 * R_ c).
  { unfold c, p, bc. rewrite stabilityCircle_initial. cbn [R_ Bc_center]. lra. }
  split; [exact H|].
  pose proof (proj2 (drawn_disc_covers_unstable p 0 bc
                       (proj1 initial_params_valid)) H) as Hd.
  exact (conj (proj1 Hd) (proj1 (proj2 Hd))).
Defined.

(** ** Points with a load *)

(** X20: a loaded point is never degenerate: for [X = XL + Xd_prime > 0]
    and [G * X >= 1e-5] (every position of the sliders of the second
    component, with [G >= 0.01] and [X = 5.3]), [calculateK] is not the
    sentinel but [1/denom], at most [1/(G*X)], and
    [calculateEigenvalues] does not answer the degenerate result. *)
Theorem loaded_point_not_degenerate (p : Params R) (g bc : R) :
  0 < XL p + Xd_prime p ->
  0.00001 <= g * (XL p + Xd_prime p) ->
  Reduced.calculateK p g bc = 1 / ratio_denom p g bc
  /\ Direct.calculateK p g bc = 1 / ratio_denom p g bc
  /\ Reduced.calculateK p g bc <= 1 / (g * (XL p + Xd_prime p))
  /\ Eig.oscillatory (Reduced.calculateEigenvalues p g bc) <> None.
Proof.
  intros HX Hg.
  set (X := XL p + Xd_prime p) in *.
  assert (Hsq : (g * X) * (g * X) <= eig_denom p g bc).
  { unfold eig_denom. fold X. change (Xtot p) with X.
    pose proof (pow2_ge_0 (1 - bc * X)). nra. }
  assert (Hden : g * X <= ratio_denom p g bc).
  { rewrite ratio_denom_sqrt_eig_denom.
    rewrite <- (sqrt_square (g * X)) by lra.
    apply sqrt_le_1_alt. exact Hsq. }
  assert (HK : Reduced.calculateK p g bc = 1 / ratio_denom p g bc).
  { rewrite calculateK_unfold.
    replace (Rltb (ratio_denom p g bc) (1 / 10000000000)) with false
      by (symmetry; apply Rltb_false; lra).
    reflexivity. }
  split; [exact HK|]. split; [exact HK|]. split.
  - rewrite HK. unfold Rdiv. rewrite !Rmult_1_l.
    apply Rinv_le_contravar; lra.
  - rewrite calculateEigenvalues_unfold. unfold eigen_spec.
    destruct (Rlt_dec (eig_denom p g bc) 1e-10) as [Hlt|_]; [nra|].
    destruct (Rle_dec 0 (disc p g bc)); cbn; discriminate.
Qed.

Lemma loaded_point_not_degenerate_witness :
  let p := initial_params (num := R) in
  Direct.calculateK p (1 / 100) (6 / 100)
  = 1 / ratio_denom p (1 / 100) (6 / 100).
Proof.
  intro p.
  assert (HX : 0 < XL p + Xd_prime p) by (cbn; lra).
  assert (Hg : 0.00001 <= 1 / 100 * (XL p + Xd_prime p)) by (cbn; lra).
  exact (proj1 (proj2 (loaded_point_not_degenerate p (1 / 100) (6 / 100)
                         HX Hg))).
Defined.

(** ** Points without a load *)

(** Two numbers with the sum and the product of [x] and [y], the first
    not below the second, are the larger and the smaller of [x] and [y]. *)
Lemma roots_by_sum_product (r1 r2 x y : R) :
  r2 <= r1 -> r1 + r2 = x + y -> r1 * r2 = x * y -> r1 = Rmax x y.
Proof.
  intros Hle Hs Hp.
  assert (Hz : (r1 - x) * (r1 - y) = 0) by nra.
  apply Rmult_integral in Hz.
  unfold Rmax. destruct (Rle_dec x y) as [Hxy|Hxy].
  - destruct Hz as [Hz|Hz]; [|lra].
    assert (r2 = y) by lra. lra.
  - destruct Hz as [Hz|Hz]; [lra|].
    assert (r2 = x) by lra. lra.
Qed.

(** Without a load the discriminant is a square and the roots are the
    no-load rates, in exact arithmetic. *)
Lemma no_load_roots (p : Params R) (bc : R) :
  valid_time_constants p ->
  ~ eig_denom p 0 bc < 1e-10 ->
  Eig.oscillatory (Reduced.calculateEigenvalues p 0 bc) = Some false
  /\ Eig.real (Reduced.calculateEigenvalues p 0 bc)
     = Rmax ((Yi p 0 bc * Xdq p - 1) / Td0_prime p)
            ((Yi p 0 bc * Xdq p - 1) / Tq0_prime p).
Proof.
  intros [Hd Hq] Hnd. set (u := Yi p 0 bc * Xdq p - 1).
  rewrite calculateEigenvalues_unfold. unfold eigen_spec.
  destruct (Rlt_dec (eig_denom p 0 bc) 1e-10) as [Hlt|_]; [contradiction|].
  assert (Ha : 0 < coef_a p) by (unfold coef_a; nra).
  assert (Eb : coef_b p 0 bc = - (Td0_prime p + Tq0_prime p) * u)
    by reflexivity.
  assert (Ec : coef_c p 0 bc = u * u).
  { unfold coef_c, Yr. fold u. unfold Rdiv. ring. }
  assert (Edisc : disc p 0 bc
                  = ((Td0_prime p - Tq0_prime p) * u)
                    * ((Td0_prime p - Tq0_prime p) * u)).
  { unfold disc. rewrite Eb, Ec. unfold coef_a. ring. }
  assert (Hdisc : 0 <= disc p 0 bc) by (rewrite Edisc; apply Rle_0_sqr).
  destruct (Rle_dec 0 (disc p 0 bc)) as [_|Hn]; [|contradiction].
  cbn [Eig.oscillatory Eig.real]. split; [reflexivity|].
  pose proof (sqrt_pos (disc p 0 bc)) as Hs.
  pose proof (sqrt_sqrt _ Hdisc) as Hss.
  assert (Hle : root2 p 0 bc <= root1 p 0 bc).
  { unfold root1, root2, Rdiv. apply Rmult_le_compat_r; [|lra].
    left. apply Rinv_0_lt_compat. lra. }
  rewrite (Rmax_left _ _ Hle).
  apply roots_by_sum_product with (root2 p 0 bc); [exact Hle| |].
  - unfold root1, root2. rewrite Eb. unfold coef_a. field. lra.
  - unfold root1, root2.
    set (s := sqrt (disc p 0 bc)) in *.
    transitivity ((coef_b p 0 bc * coef_b p 0 bc - s * s)
                  / (4 * coef_a p * coef_a p)); [field; lra|].
    rewrite Hss, Edisc, Eb. unfold coef_a. field. lra.
Qed.

(** X21: without a load the eigenvalues of the components are real: at
    their parameters ([Td0_prime = 5], [Tq0_prime = 1]), for a point
    [(0, Bc)] with [|Bc| <= 1e100] that is not degenerate,
    [calculateEigenvalues] answers [oscillatory = false] and [real] is the
    larger of [(Yi*Xdq - 1)/5] and [Yi*Xdq - 1], the no-load rates. *)
Theorem no_load_eigenvalues (bc : R) :
  let p := initial_params (num := R) in
  let u := Yi p 0 bc * Xdq p - 1 in
  Rabs bc <= 10 ^ 100 ->
  ~ eig_denom p 0 bc < 1e-10 ->
  Eig.oscillatory (Reduced.calculateEigenvalues p 0 bc) = Some false
  /\ Eig.real (Reduced.calculateEigenvalues p 0 bc) = Rmax (u / 5) u.
Proof.
  intros p u _ Hnd.
  destruct (no_load_roots p bc (proj2 initial_params_valid) Hnd) as [Ho Hr].
  split; [exact Ho|].
  rewrite Hr. fold u. cbn [Td0_prime Tq0_prime p initial_params]; js_real.
  f_equal. field.
Qed.

Lemma no_load_eigenvalues_witness :
  let p := initial_params (num := R) in
  Eig.oscillatory (Reduced.calculateEigenvalues p 0 (1 / 10)) = Some false.
Proof.
  intro p.
  assert (H1 : Rabs (1 / 10) <= 10 ^ 100).
  { rewrite Rabs_pos_eq by lra.
    apply Rle_trans with 1; [lra | apply pow_R1_Rle; lra]. }
  assert (H2 : ~ eig_denom p 0 (1 / 10) < 1e-10)
    by (unfold eig_denom, Xtot; cbn; lra).
  exact (proj1 (no_load_eigenvalues (1 / 10) H1 H2)).
Defined.

(** On binary64 the discriminant of a point without a load does not round
    below zero at the parameters of the components: the result is real
    from [Bc = -1e100] to [Bc = 1e100], the points next to the boundary
    circle and to the centre of the contours included. *)
Example no_load_eigenvalues_binary64 :
  let p := initial_params (num := PrimFloat.float) in
  forallb (fun bc =>
             match Eig.oscillatory
                     (Reduced.calculateEigenvalues p (lit 0 1) bc) with
             | Some false => true
             | _ => false
             end)
    [lit 0 1; lit 1 1000000000000; lit 5 100; lit 75 1000; lit 1 10;
     lit 1471 10000; lit 16 100; lit 18 100; lit 1886 10000; lit 2 10;
     lit 1 1; lit (-4) 100; big_lit (10 ^ 100); neg (big_lit (10 ^ 100))]
  = true.
Proof. vm_compute. reflexivity. Qed.
